(** * Smart Chiller Plant Analyzer: a model of [chiller_analyzer_pro.py]

    The script is a Streamlit page that is executed top to bottom on every
    interaction.  It reads the widgets, derives the efficiency metrics of
    every chiller, of the pump and of the cooling tower, prints
    recommendations, simulates a 24 hour load profile and distributes every
    hourly load over the chillers in input order.

    Numbers.  The script computes with Python floats.  The file has two
    layers.  The first models them as exact rationals ([Q]) and carries the
    whole script, page and state included; its statements are about which
    value flows where (the order of the steps, what is stored, shown and
    compared), and the only rounding in it is the one the script asks for,
    [round(x, 2)].  The second, module [F64], models the formulas once more
    on binary64 floats, operation by operation, with Python's [round]; the
    statements that depend on what a float operation returns (a quotient
    that underflows, a difference that rounds, a sum that cancels) are
    stated and proved there.  Integers that come from sliders and from
    [range] stay integers ([Z], [nat]) until the script mixes them with a
    float.

    Errors.  A float division whose divisor is zero raises
    [ZeroDivisionError]; fallible computations return a [result].

    The page.  Every Streamlit call that shows a computed value is an
    [Event]; headers, widget rendering and the PDF export behind its button
    (lines 137-150) are left out. *)

From Stdlib Require Import QArith Qround Qabs Qminmax Lqa ZArith Lia List String Ascii Bool.
From Stdlib Require Import PrimFloat SpecFloat.
From Stdlib Require FloatOps FloatAxioms Uint63.
Import ListNotations.
Open Scope Q_scope.

(** ** Python values: errors, true division, [round] *)

Inductive PyErr : Type :=
| ZeroDivisionError
| IndexError.

Inductive result (A : Type) : Type :=
| Ok (a : A)
| Raise (e : PyErr).

Arguments Ok {A} a.
Arguments Raise {A} e.

Definition rbind {A B : Type} (r : result A) (k : A -> result B) : result B :=
  match r with
  | Ok a => k a
  | Raise e => Raise e
  end.

Declare Scope result_scope.
Delimit Scope result_scope with result.
Notation "x <- r ;; k" := (rbind r (fun x => k))
  (at level 61, r at next level, right associativity) : result_scope.
Open Scope result_scope.

(** [xs[i]]. *)
Definition index {A : Type} (xs : list A) (i : nat) : result A :=
  match nth_error xs i with
  | Some x => Ok x
  | None => Raise IndexError
  end.

(** [a / b] on floats. *)
Definition truediv (a b : Q) : result Q :=
  if Qeq_bool b 0 then Raise ZeroDivisionError else Ok (a / b).

(** Rounding to the nearest integer, ties to the even neighbour. *)
Definition round_half_even (y : Q) : Z :=
  let f := Qfloor y in
  match Qcompare (y - inject_Z f) (1 # 2) with
  | Lt => f
  | Gt => (f + 1)%Z
  | Eq => if Z.even f then f else (f + 1)%Z
  end.

(** [round(x, 2)]: the nearest multiple of 1/100. *)
Definition round2 (x : Q) : Q :=
  round_half_even (x * 100) # 100.

(** ** Widgets: the inputs of one run *)

Inductive UnitSystem : Type :=
| SI
| IP.

Record ChillerInput : Type := {
  in_name : string;
  in_cap : Q;
  in_power : Q
}.

Record Inputs : Type := {
  unit_system : UnitSystem;
  chillers_in : list ChillerInput;
  pump_name : string;
  flow : Q;
  head : Q;
  pump_power : Q;
  tower_name : string;
  cw_in : Q;
  cw_out : Q;
  wet_bulb : Q;
  base_load : Z;
  ambient_temp : Z
}.

(** ** Chiller metrics (lines 27-42) *)

(** One entry of [chiller_data]: the dictionary with its six keys. *)
Record Chiller : Type := {
  Name : string;
  Capacity : Q;
  Power : Q;
  COP : Q;
  EER : Q;
  kW_Ton : Q
}.

(** The branch on [unit_system]: [(cop, eer, kw_per_ton)], not rounded. *)
Definition chiller_metrics (u : UnitSystem) (cap power : Q) : result (Q * Q * Q) :=
  match u with
  | IP =>
      eer <- truediv (cap * 12000) (power * 1000) ;;
      let cop := eer / 3.412 in
      kw_per_ton <- truediv power cap ;;
      Ok (cop, eer, kw_per_ton)
  | SI =>
      cop <- truediv cap power ;;
      let eer := cop * 3.412 in
      kw_per_ton <- truediv 3.5 cop ;;
      Ok (cop, eer, kw_per_ton)
  end.

(** The dictionary appended to [chiller_data]. *)
Definition chiller_entry (u : UnitSystem) (i : ChillerInput) : result Chiller :=
  m <- chiller_metrics u (in_cap i) (in_power i) ;;
  let '(cop, eer, kw_per_ton) := m in
  Ok {| Name := in_name i;
        Capacity := in_cap i;
        Power := in_power i;
        COP := round2 cop;
        EER := round2 eer;
        kW_Ton := round2 kw_per_ton |}.

(** ** Pump (lines 51-54) and cooling tower (lines 63-65) *)

Definition density (u : UnitSystem) : Q :=
  match u with SI => 1000 | IP => 62.4 * 1.3558 end.

Definition g (u : UnitSystem) : Q :=
  match u with SI => 9.81 | IP => 32.174 end.

Definition hydraulic_power (u : UnitSystem) (flow head : Q) : Q :=
  flow * head * density u * g u / 1000.

Definition pump_efficiency (u : UnitSystem) (flow head pump_power : Q) : result Q :=
  q <- truediv (hydraulic_power u flow head) pump_power ;;
  Ok (q * 100).

(** [(CT_range, approach, effectiveness)]. *)
Definition tower_metrics (cw_in cw_out wet_bulb : Q) : result (Q * Q * Q) :=
  let CT_range := cw_in - cw_out in
  let approach := cw_out - wet_bulb in
  effectiveness <- truediv CT_range (CT_range + approach) ;;
  Ok (CT_range, approach, effectiveness).

(** ** The page and the script's variables *)

(** One entry of [active_chillers]: [(name, load, cop)]. *)
Definition Entry : Type := (string * Q * Q)%type.

(** What the script puts on the page, call by call. *)
Inductive Event : Type :=
| success_chiller (name : string) (cop eer kw_per_ton : Q)
| success_pump (name : string) (eff : Q)
| success_tower (name : string) (CT_range approach eff_pct : Q)
| warning_chiller (name : string)
| info_chiller (name : string)
| warning_pump (name : string)
| warning_tower (name : string)
| plot_profile (timestamps : list string) (profile : list Q)
| info_total_capacity (total : Q)
| write_load (timestamp : string) (load : Q)
| write_entry (name : string) (load cop : Q)
| plot_cop (name : string) (loads : list Z) (cop_vals : list Q).

(** The lists and the counter the script mutates, and the page so far. *)
Record State : Type := {
  chiller_data : list Chiller;
  profile : list Q;
  timestamps : list string;
  active_chillers : list Entry;
  remaining_load : Q;
  page : list Event
}.

Definition set_chiller_data (v : list Chiller) (s : State) : State :=
  {| chiller_data := v; profile := profile s; timestamps := timestamps s;
     active_chillers := active_chillers s; remaining_load := remaining_load s;
     page := page s |}.

Definition set_profile (v : list Q) (s : State) : State :=
  {| chiller_data := chiller_data s; profile := v; timestamps := timestamps s;
     active_chillers := active_chillers s; remaining_load := remaining_load s;
     page := page s |}.

Definition set_timestamps (v : list string) (s : State) : State :=
  {| chiller_data := chiller_data s; profile := profile s; timestamps := v;
     active_chillers := active_chillers s; remaining_load := remaining_load s;
     page := page s |}.

Definition set_active_chillers (v : list Entry) (s : State) : State :=
  {| chiller_data := chiller_data s; profile := profile s; timestamps := timestamps s;
     active_chillers := v; remaining_load := remaining_load s;
     page := page s |}.

Definition set_remaining_load (v : Q) (s : State) : State :=
  {| chiller_data := chiller_data s; profile := profile s; timestamps := timestamps s;
     active_chillers := active_chillers s; remaining_load := v;
     page := page s |}.

Definition set_page (v : list Event) (s : State) : State :=
  {| chiller_data := chiller_data s; profile := profile s; timestamps := timestamps s;
     active_chillers := active_chillers s; remaining_load := remaining_load s;
     page := v |}.

Definition emit (e : Event) (s : State) : State :=
  set_page (page s ++ [e]) s.

(** ** Chiller inputs (lines 21-43) *)

Fixpoint chiller_loop (u : UnitSystem) (items : list ChillerInput) (s : State)
  : result State :=
  match items with
  | [] => Ok s
  | i :: rest =>
      chiller <- chiller_entry u i ;;
      let s := set_chiller_data (chiller_data s ++ [chiller]) s in
      let s := emit (success_chiller (Name chiller) (COP chiller) (EER chiller)
                       (kW_Ton chiller)) s in
      chiller_loop u rest s
  end.

(** ** Recommendations (lines 70-78) *)

Definition Qlt_bool (a b : Q) : bool := negb (Qle_bool b a).

Definition recommend (chiller : Chiller) : Event :=
  if Qlt_bool (COP chiller) 3.5
  then warning_chiller (Name chiller)
  else info_chiller (Name chiller).

Fixpoint recommendation_loop (cs : list Chiller) (s : State) : State :=
  match cs with
  | [] => s
  | chiller :: rest => recommendation_loop rest (emit (recommend chiller) s)
  end.

Definition emit_if (b : bool) (e : Event) (s : State) : State :=
  if b then emit e s else s.

(** ** Simulated load profile (lines 84-91) *)

Definition digit (n : nat) : ascii :=
  ascii_of_nat (48 + n).

(** [datetime(2025, 7, 25, hour).strftime("%H:%M")]. *)
Definition strftime_HM (hour : nat) : string :=
  String (digit (hour / 10)) (String (digit (hour mod 10)) ":00").

Section LoadProfile.

(** [np.exp], a function of the NumPy library. *)
Variable np_exp : Q -> Q.

Definition load_factor (hour : nat) : Q :=
  0.6 + 0.4 * np_exp (inject_Z (- ((Z.of_nat hour - 14) ^ 2)) / 20).

Definition temp_factor (ambient_temp : Z) : Q :=
  1 + inject_Z (ambient_temp - 30) * 0.02.

Definition demand (base_load ambient_temp : Z) (hour : nat) : Q :=
  round2 (inject_Z base_load * load_factor hour * temp_factor ambient_temp).

Fixpoint profile_loop (base_load ambient_temp : Z) (hours : list nat) (s : State)
  : State :=
  match hours with
  | [] => s
  | hour :: rest =>
      let s := set_timestamps (timestamps s ++ [strftime_HM hour]) s in
      let s := set_profile (profile s ++ [demand base_load ambient_temp hour]) s in
      profile_loop base_load ambient_temp rest s
  end.

(** Lines 84-91: both lists start empty and get one item per hour. *)
Definition simulate_profile (base_load ambient_temp : Z) (s : State) : State :=
  let s := set_profile [] s in
  let s := set_timestamps [] s in
  profile_loop base_load ambient_temp (seq 0 24) s.

End LoadProfile.

(** ** Chiller sequencing (lines 103-122) *)

(** [sum([...])]: Python adds from the left, starting at 0. *)
Definition total_capacity (cs : list Chiller) : Q :=
  fold_left Qplus (map Capacity cs) 0.

(** The loop over [chiller_data] (lines 109-119) on the two variables it
    updates; [break] returns them as they are. *)
Fixpoint sequencing_loop (cs : list Chiller) (active_chillers : list Entry)
  (remaining_load : Q) : list Entry * Q :=
  match cs with
  | [] => (active_chillers, remaining_load)
  | chiller :: rest =>
      if Qle_bool remaining_load 0 then (active_chillers, remaining_load)
      else
        let cap := Capacity chiller in
        let cop := COP chiller in
        if Qle_bool cap remaining_load
        then sequencing_loop rest (active_chillers ++ [(Name chiller, cap, cop)])
               (remaining_load - cap)
        else sequencing_loop rest
               (active_chillers ++ [(Name chiller, remaining_load, cop)]) 0
  end.

(** Lines 107-119 for one load: the assignments and the load left over. *)
Definition allocate (cs : list Chiller) (load : Q) : list Entry * Q :=
  sequencing_loop cs [] load.

Fixpoint entry_loop (entries : list Entry) (s : State) : State :=
  match entries with
  | [] => s
  | (name, load, cop) :: rest =>
      entry_loop rest (emit (write_entry name load (round2 cop)) s)
  end.

(** [for i, load in enumerate(profile)]. *)
Definition enumerate {A : Type} (xs : list A) : list (nat * A) :=
  combine (seq 0 (List.length xs)) xs.

Fixpoint hour_loop (items : list (nat * Q)) (s : State) : result State :=
  match items with
  | [] => Ok s
  | (i, load) :: rest =>
      let s := set_active_chillers [] s in
      let s := set_remaining_load load s in
      let '(active, remaining) :=
        sequencing_loop (chiller_data s) (active_chillers s) (remaining_load s) in
      let s := set_remaining_load remaining (set_active_chillers active s) in
      ts <- index (timestamps s) i ;;
      let s := emit (write_load ts load) s in
      let s := entry_loop (active_chillers s) s in
      hour_loop rest s
  end.

(** ** COP against load (lines 127-130) *)

Definition loads : list Z := [25; 50; 75; 100]%Z.

Definition cop_vals (chiller : Chiller) : list Q :=
  map (fun l => COP chiller * (1 - 0.1 * (1 - inject_Z l / 100))) loads.

Fixpoint chart_loop (cs : list Chiller) (s : State) : State :=
  match cs with
  | [] => s
  | chiller :: rest =>
      chart_loop rest (emit (plot_cop (Name chiller) loads (cop_vals chiller)) s)
  end.

(** ** The script, top to bottom *)

(** Lines 21-43. *)
Definition chiller_section (inp : Inputs) (s : State) : result State :=
  let s := set_chiller_data [] s in
  chiller_loop (unit_system inp) (chillers_in inp) s.

(** Lines 45-78: pump, cooling tower, recommendations. *)
Definition plant_section (inp : Inputs) (s : State) : result State :=
  let u := unit_system inp in
  pump_eff <- pump_efficiency u (flow inp) (head inp) (pump_power inp) ;;
  let s := emit (success_pump (pump_name inp) (round2 pump_eff)) s in
  t <- tower_metrics (cw_in inp) (cw_out inp) (wet_bulb inp) ;;
  let '(CT_range, approach, effectiveness) := t in
  let s := emit (success_tower (tower_name inp) CT_range approach
                   (round2 (effectiveness * 100))) s in
  let s := recommendation_loop (chiller_data s) s in
  let s := emit_if (Qlt_bool pump_eff 60) (warning_pump (pump_name inp)) s in
  let s := emit_if (Qlt_bool effectiveness 0.5) (warning_tower (tower_name inp)) s in
  Ok s.

(** Lines 80-99. *)
Definition profile_section (np_exp : Q -> Q) (inp : Inputs) (s : State) : State :=
  let s := simulate_profile np_exp (base_load inp) (ambient_temp inp) s in
  emit (plot_profile (timestamps s) (profile s)) s.

(** Lines 101-122. *)
Definition sequencing_section (s : State) : result State :=
  let s := emit (info_total_capacity (total_capacity (chiller_data s))) s in
  hour_loop (enumerate (profile s)) s.

(** Lines 124-135. *)
Definition chart_section (s : State) : State :=
  chart_loop (chiller_data s) s.

Definition script (np_exp : Q -> Q) (inp : Inputs) (s : State) : result State :=
  s <- chiller_section inp s ;;
  s <- plant_section inp s ;;
  let s := profile_section np_exp inp s in
  s <- sequencing_section s ;;
  Ok (chart_section s).

(** A rerun: Streamlit clears the page and executes the script again; the
    variables of an earlier run are whatever that run left behind. *)
Definition rerun (np_exp : Q -> Q) (inp : Inputs) (s : State) : result State :=
  script np_exp inp (set_page [] s).

(** The allocation records a page shows: every load line with the entry
    lines that follow it. *)
Record AllocationRecord : Type := {
  timestamp : string;
  demandKw : Q;
  assignments : list Entry
}.

Fixpoint entries_of (pg : list Event) : list Entry :=
  match pg with
  | write_entry name load cop :: rest => (name, load, cop) :: entries_of rest
  | _ => []
  end.

Fixpoint allocation_records (pg : list Event) : list AllocationRecord :=
  match pg with
  | [] => []
  | write_load ts load :: rest =>
      {| timestamp := ts; demandKw := load; assignments := entries_of rest |}
      :: allocation_records rest
  | _ :: rest => allocation_records rest
  end.

(** ** A computable stand-in for [np.exp]

    The truncated exponential series in Horner form; it is used to run the
    model on concrete inputs. *)

Fixpoint exp_series (n : nat) (k : positive) (x : Q) : Q :=
  match n with
  | O => 1
  | S n' => 1 + x / inject_Z (Zpos k) * exp_series n' (Pos.succ k) x
  end.

Definition exp_approx (x : Q) : Q :=
  Qred (exp_series 60 1 x).

Definition default_inputs : Inputs :=
  {| unit_system := SI;
     chillers_in :=
       [ {| in_name := "Chiller 1"; in_cap := 100; in_power := 60 |};
         {| in_name := "Chiller 2"; in_cap := 100; in_power := 60 |} ];
     pump_name := "Main Pump"; flow := 0.02; head := 30; pump_power := 6;
     tower_name := "CT Unit 1"; cw_in := 35; cw_out := 30; wet_bulb := 28;
     base_load := 600; ambient_temp := 35 |}.

Definition empty_state : State :=
  {| chiller_data := []; profile := []; timestamps := [];
     active_chillers := []; remaining_load := 0; page := [] |}.

(** ** Definitions the statements below use *)

(** The allocation as the specification words it: walk the chillers in
    order, stop when nothing remains, load a chiller fully while the
    remaining load covers its capacity, otherwise give it what remains and
    finish. *)
Fixpoint spec_allocate (cs : list Chiller) (remaining : Q) : list Entry * Q :=
  match cs with
  | [] => ([], remaining)
  | c :: rest =>
      if Qle_bool remaining 0 then ([], remaining)
      else if Qle_bool (Capacity c) remaining
      then let '(es, r) := spec_allocate rest (remaining - Capacity c) in
           ((Name c, Capacity c, COP c) :: es, r)
      else ([(Name c, remaining, COP c)], 0)
  end.

Definition assigned (e : Entry) : Q := snd (fst e).

(** The sum of the assigned loads of a record. *)
Definition assigned_total (es : list Entry) : Q :=
  fold_right (fun e acc => assigned e + acc) 0 es.


(** The COP a unit-system branch computes, before any rounding. *)
Definition cop_of (u : UnitSystem) (cap power : Q) : result Q :=
  m <- chiller_metrics u cap power ;;
  Ok (fst (fst m)).

(** What the loops put on the page, as functions of their inputs. *)

Fixpoint chillers_of (u : UnitSystem) (items : list ChillerInput)
  : result (list Chiller) :=
  match items with
  | [] => Ok []
  | i :: rest =>
      c <- chiller_entry u i ;;
      cs <- chillers_of u rest ;;
      Ok (c :: cs)
  end.

Definition success_of (c : Chiller) : Event :=
  success_chiller (Name c) (COP c) (EER c) (kW_Ton c).

Definition entry_line (e : Entry) : Event :=
  let '(name, load, cop) := e in write_entry name load (round2 cop).

Definition plot_of (c : Chiller) : Event :=
  plot_cop (Name c) loads (cop_vals c).

Fixpoint hour_lines (cs : list Chiller) (ts : list string) (items : list (nat * Q))
  : result (list Event) :=
  match items with
  | [] => Ok []
  | (i, load) :: rest =>
      t <- index ts i ;;
      pg <- hour_lines cs ts rest ;;
      Ok (write_load t load :: map entry_line (fst (allocate cs load)) ++ pg)
  end.

(** What lines 45-78 put on the page, given [chiller_data]. *)
Definition plant_lines (inp : Inputs) (cs : list Chiller) : result (list Event) :=
  pump_eff <- pump_efficiency (unit_system inp) (flow inp) (head inp)
                (pump_power inp) ;;
  t <- tower_metrics (cw_in inp) (cw_out inp) (wet_bulb inp) ;;
  let '(CT_range, approach, effectiveness) := t in
  Ok ([success_pump (pump_name inp) (round2 pump_eff);
       success_tower (tower_name inp) CT_range approach
         (round2 (effectiveness * 100))]
      ++ map recommend cs
      ++ (if Qlt_bool pump_eff 60 then [warning_pump (pump_name inp)] else [])
      ++ (if Qlt_bool effectiveness 0.5 then [warning_tower (tower_name inp)]
          else [])).

(** The two loop variables after the hours [items], starting from [x]. *)
Definition last_allocation (cs : list Chiller) (items : list (nat * Q))
  (x : list Entry * Q) : list Entry * Q :=
  fold_left (fun _ item => allocate cs (snd item)) items x.

(** Two chillers of capacity 100, as the form proposes them. *)
Definition chiller_100 (name : string) : Chiller :=
  {| Name := name; Capacity := 100; Power := 60;
     COP := 1.67; EER := 5.69; kW_Ton := 2.10 |}.

Definition fleet_100 : list Chiller :=
  [chiller_100 "Chiller 1"; chiller_100 "Chiller 2"].

(** The reading under which the 3.5 threshold is tested on the COP before
    rounding. *)
Definition threshold_on_unrounded_cop (u : UnitSystem) (i : ChillerInput) : Prop :=
  forall (c : Chiller) (cop eer kw_per_ton : Q),
    chiller_entry u i = Ok c ->
    chiller_metrics u (in_cap i) (in_power i) = Ok (cop, eer, kw_per_ton) ->
    (recommend c = warning_chiller (Name c) <-> cop < 3.5).

(** A chiller whose COP is 3.496. *)
Definition chiller_3496 : ChillerInput :=
  {| in_name := "Chiller 1"; in_cap := 349.6; in_power := 100 |}.

(** What [chiller_data] holds for it under SI. *)
Definition stored_3496 : Chiller :=
  {| Name := "Chiller 1"; Capacity := 349.6; Power := 100;
     COP := 3.50; EER := 11.93; kW_Ton := 1.00 |}.

(** A page line that opens no allocation record. *)
Definition no_load (e : Event) : Prop :=
  match e with
  | write_load _ _ => False
  | _ => True
  end.

(** An entry as its line shows it. *)
Definition shown (e : Entry) : Entry :=
  let '(name, load, cop) := e in (name, load, round2 cop).

(** The profile and the timestamps of every run. *)
Definition profile_of (np_exp : Q -> Q) (inp : Inputs) : list Q :=
  map (demand np_exp (base_load inp) (ambient_temp inp)) (seq 0 24).

Definition timestamps_of : list string :=
  map strftime_HM (seq 0 24).

(** ** The arithmetic of the code: binary64

    The definitions above compute with exact rationals.  Where a statement
    depends on what a float operation returns (a quotient that underflows, a
    difference that rounds, a sum that cancels) the code is modelled once
    more on the primitive binary64 floats, operation by operation. *)

#[local] Set Warnings "-inexact-float".

Module F64.

(** [a / b] on floats: Python raises for a divisor that compares equal to
    0.0 and otherwise returns the IEEE quotient. *)
Definition truediv (a b : float) : result float :=
  if (b =? 0)%float then Raise ZeroDivisionError else Ok (a / b)%float.

(** The value of a finite double as a multiple of 2^-1074. *)
Definition sf_scaled (x : spec_float) : Z :=
  match x with
  | S754_finite s m e => (if s then Zneg m else Zpos m) * 2 ^ (e + 1074)
  | _ => 0
  end.

Definition scaled (x : float) : Z := sf_scaled (FloatOps.Prim2SF x).

(** The exact value of a finite double. *)
Definition F2Q (x : float) : Q := scaled x # (2 ^ 1074).

(** Mantissa and exponent of a binary64 number in canonical form. *)
Definition valid64 (m : positive) (e : Z) : Prop :=
  bounded FloatOps.prec FloatOps.emax m e = true.

(** [round(x, 2)] on a double: the exact binary value is rounded to two
    decimals, ties to even, and the double nearest to that decimal is
    returned; from 2^46 on a double is its own nearest decimal. *)
Definition round2 (x : float) : float :=
  if is_nan x || is_infinity x then x
  else if (0x1p+46 <=? abs x)%float then x
  else
    let k := round_half_even (F2Q (abs x) * 100) in
    let r := (of_uint63 (Uint63.of_Z k) / 100)%float in
    if get_sign x then (- r)%float else r.

Record ChillerInput : Type := {
  in_name : string;
  in_cap : float;
  in_power : float
}.

Record Chiller : Type := {
  Name : string;
  Capacity : float;
  Power : float;
  COP : float;
  EER : float;
  kW_Ton : float
}.

Definition chiller_metrics (u : UnitSystem) (cap power : float)
  : result (float * float * float) :=
  match u with
  | IP =>
      eer <- truediv (cap * 12000)%float (power * 1000)%float ;;
      let cop := (eer / 3.412)%float in
      kw_per_ton <- truediv power cap ;;
      Ok (cop, eer, kw_per_ton)
  | SI =>
      cop <- truediv cap power ;;
      let eer := (cop * 3.412)%float in
      kw_per_ton <- truediv 3.5%float cop ;;
      Ok (cop, eer, kw_per_ton)
  end.

Definition chiller_entry (u : UnitSystem) (i : ChillerInput) : result Chiller :=
  m <- chiller_metrics u (in_cap i) (in_power i) ;;
  let '(cop, eer, kw_per_ton) := m in
  Ok {| Name := in_name i;
        Capacity := in_cap i;
        Power := in_power i;
        COP := round2 cop;
        EER := round2 eer;
        kW_Ton := round2 kw_per_ton |}.

Definition recommend (chiller : Chiller) : Event :=
  if (COP chiller <? 3.5)%float
  then warning_chiller (Name chiller)
  else info_chiller (Name chiller).

(** Lines 70-74 over the stored chillers: one message each, in order. *)
Fixpoint recommendation_loop (cs : list Chiller) (page : list Event)
  : list Event :=
  match cs with
  | [] => page
  | chiller :: rest => recommendation_loop rest (page ++ [recommend chiller])
  end.

Definition tower_metrics (cw_in cw_out wet_bulb : float)
  : result (float * float * float) :=
  let CT_range := (cw_in - cw_out)%float in
  let approach := (cw_out - wet_bulb)%float in
  effectiveness <- truediv CT_range (CT_range + approach)%float ;;
  Ok (CT_range, approach, effectiveness).

Definition Entry : Type := (string * float * float)%type.

Fixpoint sequencing_loop (cs : list Chiller) (active_chillers : list Entry)
  (remaining_load : float) : list Entry * float :=
  match cs with
  | [] => (active_chillers, remaining_load)
  | chiller :: rest =>
      if (remaining_load <=? 0)%float then (active_chillers, remaining_load)
      else
        let cap := Capacity chiller in
        let cop := COP chiller in
        if (cap <=? remaining_load)%float
        then sequencing_loop rest (active_chillers ++ [(Name chiller, cap, cop)])
               (remaining_load - cap)%float
        else sequencing_loop rest
               (active_chillers ++ [(Name chiller, remaining_load, cop)]) 0%float
  end.

Definition allocate (cs : list Chiller) (load : float) : list Entry * float :=
  sequencing_loop cs [] load.

(** The assignments in the order the loop makes them, and the leftover. *)
Fixpoint assignments (cs : list Chiller) (remaining : float) : list Entry * float :=
  match cs with
  | [] => ([], remaining)
  | c :: rest =>
      if (remaining <=? 0)%float then ([], remaining)
      else if (Capacity c <=? remaining)%float
      then let '(es, r) := assignments rest (remaining - Capacity c)%float in
           ((Name c, Capacity c, COP c) :: es, r)
      else ([(Name c, remaining, COP c)], 0%float)
  end.

(** Every subtraction the loop performs on [cs] and [remaining] returns the
    exact difference. *)
Fixpoint exact_run (cs : list Chiller) (remaining : float) : bool :=
  match cs with
  | [] => true
  | c :: rest =>
      if (remaining <=? 0)%float then true
      else if (Capacity c <=? remaining)%float
      then is_finite (remaining - Capacity c)%float
           && Qeq_bool (F2Q (remaining - Capacity c)%float)
                (F2Q remaining - F2Q (Capacity c))
           && exact_run rest (remaining - Capacity c)%float
      else true
  end.

(** Exact sums of the assigned loads and of the capacities. *)
Definition assigned_total (es : list Entry) : Q :=
  fold_right (fun e acc => F2Q (snd (fst e)) + acc) 0 es.

Definition capacity_total (cs : list Chiller) : Q :=
  fold_right (fun c acc => F2Q (Capacity c) + acc) 0 cs.

Definition chiller (name : string) (cap : float) : Chiller :=
  {| Name := name; Capacity := cap; Power := 60%float;
     COP := 1.67%float; EER := 5.69%float; kW_Ton := 2.1%float |}.

End F64.

(** ** Arithmetic of the Python layer *)

Lemma truediv_ok (a b : Q) : ~ b == 0 -> truediv a b = Ok (a / b).
Proof.
  intros Hb. unfold truediv.
  destruct (Qeq_bool b 0) eqn:E; [ | reflexivity ].
  apply Qeq_bool_eq in E. contradiction.
Qed.

Lemma truediv_zero (a b : Q) : b == 0 -> truediv a b = Raise ZeroDivisionError.
Proof.
  intros Hb. unfold truediv. now rewrite (Qeq_eq_bool _ _ Hb).
Qed.


Lemma Qlt_bool_iff (a b : Q) : Qlt_bool a b = true <-> a < b.
Proof.
  unfold Qlt_bool. rewrite negb_true_iff. split.
  - intros E. apply Qnot_le_lt. intros H.
    apply Qle_bool_iff in H. congruence.
  - intros H. destruct (Qle_bool b a) eqn:E; [ | reflexivity ].
    apply Qle_bool_iff in E. lra.
Qed.

Lemma Qle_bool_false (a b : Q) : Qle_bool a b = false <-> b < a.
Proof.
  rewrite <- Qlt_bool_iff. unfold Qlt_bool. now rewrite negb_true_iff.
Qed.

#[export] Instance round_half_even_comp : Proper (Qeq ==> eq) round_half_even.
Proof.
  intros x y Hxy. unfold round_half_even.
  rewrite (Qfloor_comp _ _ Hxy).
  assert (E : Qcompare (x - inject_Z (Qfloor y)) (1 # 2)
              = Qcompare (y - inject_Z (Qfloor y)) (1 # 2)).
  { apply Qcompare_comp; [ now rewrite Hxy | reflexivity ]. }
  now rewrite E.
Qed.

Lemma round_half_even_Z (n : Z) : round_half_even (inject_Z n) = n.
Proof.
  unfold round_half_even. rewrite Qfloor_Z.
  assert (E : Qcompare (inject_Z n - inject_Z n) (1 # 2) = Lt).
  { rewrite <- Qlt_alt. lra. }
  now rewrite E.
Qed.

(** Rounding leaves a whole number as it is. *)
Lemma round2_Z (x : Q) (n : Z) : x == inject_Z n -> round2 x == inject_Z n.
Proof.
  intros Hx. unfold round2.
  assert (E : x * 100 == inject_Z (n * 100)).
  { rewrite Hx, inject_Z_mult. reflexivity. }
  rewrite E, round_half_even_Z.
  unfold Qeq, inject_Z. simpl. lia.
Qed.

(** Rounding twice is rounding once. *)
Lemma round2_idem (x : Q) : round2 (round2 x) = round2 x.
Proof.
  unfold round2.
  set (z := round_half_even (x * 100)).
  assert (E : (z # 100) * 100 == inject_Z z).
  { unfold Qeq, inject_Z, Qmult. simpl. lia. }
  f_equal. now rewrite E, round_half_even_Z.
Qed.

(** ** Chiller metrics *)






(** ** The sequencing loop *)

Lemma sequencing_loop_stop (cs : list Chiller) (acc : list Entry) (rem : Q) :
  rem <= 0 -> sequencing_loop cs acc rem = (acc, rem).
Proof.
  intros H. destruct cs as [ | c rest ]; simpl; [ reflexivity | ].
  apply Qle_bool_iff in H. now rewrite H.
Qed.

Lemma sequencing_loop_full (c : Chiller) (rest : list Chiller) (acc : list Entry)
  (rem : Q) :
  0 < rem -> Capacity c <= rem ->
  sequencing_loop (c :: rest) acc rem
  = sequencing_loop rest (acc ++ [(Name c, Capacity c, COP c)]) (rem - Capacity c).
Proof.
  intros Hpos Hcap. simpl.
  apply Qle_bool_false in Hpos. apply Qle_bool_iff in Hcap.
  now rewrite Hpos, Hcap.
Qed.

Lemma sequencing_loop_partial (c : Chiller) (rest : list Chiller)
  (acc : list Entry) (rem : Q) :
  0 < rem -> rem < Capacity c ->
  sequencing_loop (c :: rest) acc rem = (acc ++ [(Name c, rem, COP c)], 0).
Proof.
  intros Hpos Hcap. simpl.
  apply Qle_bool_false in Hpos. apply Qle_bool_false in Hcap.
  rewrite Hpos, Hcap. apply sequencing_loop_stop. lra.
Qed.

(** The loop of the script computes the allocation the specification
    describes, appended to what [active_chillers] held before. *)
Lemma sequencing_loop_spec (cs : list Chiller) (acc : list Entry) (rem : Q) :
  sequencing_loop cs acc rem
  = (acc ++ fst (spec_allocate cs rem), snd (spec_allocate cs rem)).
Proof.
  revert acc rem. induction cs as [ | c rest IH ]; intros acc rem; simpl.
  - now rewrite app_nil_r.
  - destruct (Qle_bool rem 0) eqn:Estop; simpl.
    + now rewrite app_nil_r.
    + destruct (Qle_bool (Capacity c) rem) eqn:Ecap.
      * rewrite IH.
        destruct (spec_allocate rest (rem - Capacity c)) as [es r]. simpl.
        now rewrite <- app_assoc.
      * simpl. apply sequencing_loop_stop. lra.
Qed.

Lemma allocate_spec (cs : list Chiller) (load : Q) :
  allocate cs load = spec_allocate cs load.
Proof.
  unfold allocate. rewrite sequencing_loop_spec. simpl.
  now destruct (spec_allocate cs load).
Qed.

(** C1: the allocator walks the chillers in input order with [remaining]
    starting at the demand: it stops once nothing remains; a chiller whose
    capacity the remaining load covers gets its capacity, which is
    subtracted; otherwise the chiller gets what remains and the remainder
    becomes 0.  The loop computes the allocation as the specification words
    it.  Two chillers of capacity 100: demand 150 gives 100 and 50, demand
    250 gives 100 and 100 with 50 left over, demand 0 gives no assignment. *)
Theorem C1_sequencing_allocator :
  (forall (cs : list Chiller) (d : Q), allocate cs d = spec_allocate cs d)
  /\ (forall c rest acc rem,
        rem <= 0 -> sequencing_loop (c :: rest) acc rem = (acc, rem))
  /\ (forall c rest acc rem,
        0 < rem -> Capacity c <= rem ->
        sequencing_loop (c :: rest) acc rem
        = sequencing_loop rest (acc ++ [(Name c, Capacity c, COP c)])
            (rem - Capacity c))
  /\ (forall c rest acc rem,
        0 < rem -> rem < Capacity c ->
        sequencing_loop (c :: rest) acc rem
        = (acc ++ [(Name c, rem, COP c)], 0))
  /\ (forall c1 c2 : Chiller,
        Capacity c1 = 100 -> Capacity c2 = 100 ->
        allocate [c1; c2] 150
        = ([(Name c1, 100, COP c1); (Name c2, 50, COP c2)], 0)
        /\ allocate [c1; c2] 250
           = ([(Name c1, 100, COP c1); (Name c2, 100, COP c2)], 50)
        /\ allocate [c1; c2] 0 = ([], 0))
  /\ (forall cs : list Chiller, allocate cs 0 = ([], 0)).
Proof.
  split; [ exact allocate_spec | ].
  split; [ intros; now apply sequencing_loop_stop | ].
  split; [ intros; now apply sequencing_loop_full | ].
  split; [ intros; now apply sequencing_loop_partial | ].
  split.
  - intros c1 c2 H1 H2. unfold allocate. simpl. rewrite H1, H2.
    repeat split; reflexivity.
  - intros cs. apply sequencing_loop_stop. lra.
Qed.

Lemma C1_sequencing_allocator_witness :
  sequencing_loop fleet_100 [] 150
  = sequencing_loop [chiller_100 "Chiller 2"] [("Chiller 1"%string, 100, 1.67)]
      (150 - 100)
  /\ sequencing_loop [chiller_100 "Chiller 2"] [("Chiller 1"%string, 100, 1.67)] 50
     = ([("Chiller 1"%string, 100, 1.67); ("Chiller 2"%string, 50, 1.67)], 0)
  /\ sequencing_loop fleet_100 [] 0 = ([], 0).
Proof.
  destruct C1_sequencing_allocator as (_ & Hstop & Hfull & Hpart & _).
  split; [ | split ].
  - apply (Hfull (chiller_100 "Chiller 1") [chiller_100 "Chiller 2"] [] 150);
      [ reflexivity | discriminate ].
  - apply (Hpart (chiller_100 "Chiller 2") [] [("Chiller 1"%string, 100, 1.67)] 50);
      reflexivity.
  - apply (Hstop (chiller_100 "Chiller 1") [chiller_100 "Chiller 2"] [] 0).
    discriminate.
Defined.

(** ** Shape of an allocation *)

Lemma spec_allocate_shape (cs : list Chiller) :
  Forall (fun c => 0 < Capacity c) cs ->
  forall d : Q,
    (List.length (fst (spec_allocate cs d)) <= List.length cs)%nat
    /\ map (fun e : Entry => (fst (fst e), snd e)) (fst (spec_allocate cs d))
       = map (fun c => (Name c, COP c))
           (firstn (List.length (fst (spec_allocate cs d))) cs)
    /\ (forall (i : nat) (c : Chiller) (e : Entry),
          nth_error cs i = Some c ->
          nth_error (fst (spec_allocate cs d)) i = Some e ->
          0 < assigned e
          /\ assigned e <= Capacity c
          /\ ((S i < List.length (fst (spec_allocate cs d)))%nat ->
              assigned e = Capacity c)).
Proof.
  induction 1 as [ | c0 cs Hc Hcs IH ]; intros d.
  - simpl. repeat split; try lia.
    all: destruct i; discriminate.
  - simpl. destruct (Qle_bool d 0) eqn:Estop.
    + simpl. split; [ lia | ]. split; [ reflexivity | ].
      intros i c e _ He. destruct i; discriminate.
    + apply Qle_bool_false in Estop.
      destruct (Qle_bool (Capacity c0) d) eqn:Ecap.
      * destruct (IH (d - Capacity c0)) as (Hlen & Hmap & Hnth).
        destruct (spec_allocate cs (d - Capacity c0)) as [es r].
        simpl in *. split; [ lia | ]. split; [ now rewrite Hmap | ].
        intros [ | i ] c e Hci Hei; simpl in *.
        -- injection Hci as <-. injection Hei as <-.
           unfold assigned. simpl.
           split; [ lra | ]. split; [ lra | reflexivity ].
        -- destruct (Hnth i c e Hci Hei) as (H1 & H2 & H3).
           repeat split; try assumption. intros Hi. apply H3. lia.
      * apply Qle_bool_false in Ecap. simpl.
        split; [ lia | ]. split; [ reflexivity | ].
        intros [ | i ] c e Hci Hei; simpl in *.
        -- injection Hci as <-. injection Hei as <-.
           unfold assigned. simpl.
           split; [ lra | ]. split; [ lra | lia ].
        -- destruct i; discriminate.
Qed.

(** C10: for a demand d >= 0 and capacities > 0, the assignments name a
    prefix of the chiller list in input order (with each chiller's COP),
    every assigned load is > 0 and at most the chiller's capacity, and every
    assignment that is not the last one is the chiller's full capacity. *)
Theorem C10_assignments_prefix (cs : list Chiller) (d : Q) :
  0 <= d -> Forall (fun c => 0 < Capacity c) cs ->
  exists (es : list Entry) (leftover : Q),
    allocate cs d = (es, leftover)
    /\ (List.length es <= List.length cs)%nat
    /\ map (fun e : Entry => (fst (fst e), snd e)) es
       = map (fun c => (Name c, COP c)) (firstn (List.length es) cs)
    /\ (forall (i : nat) (c : Chiller) (e : Entry),
          nth_error cs i = Some c ->
          nth_error es i = Some e ->
          0 < assigned e
          /\ assigned e <= Capacity c
          /\ ((S i < List.length es)%nat -> assigned e = Capacity c)).
Proof.
  intros _ Hcs. rewrite allocate_spec.
  pose proof (spec_allocate_shape cs Hcs d) as H.
  destruct (spec_allocate cs d) as [es r]. simpl in H.
  exists es, r. split; [ reflexivity | exact H ].
Qed.

Lemma C10_assignments_prefix_witness :
  exists (es : list Entry) (leftover : Q),
    allocate fleet_100 150 = (es, leftover)
    /\ (List.length es <= List.length fleet_100)%nat
    /\ map (fun e : Entry => (fst (fst e), snd e)) es
       = map (fun c => (Name c, COP c)) (firstn (List.length es) fleet_100)
    /\ (forall (i : nat) (c : Chiller) (e : Entry),
          nth_error fleet_100 i = Some c ->
          nth_error es i = Some e ->
          0 < assigned e
          /\ assigned e <= Capacity c
          /\ ((S i < List.length es)%nat -> assigned e = Capacity c)).
Proof.
  apply (C10_assignments_prefix fleet_100 150).
  - discriminate.
  - repeat constructor.
Defined.

(** ** The simulated load profile *)

Lemma nth_error_map_seq {A : Type} (f : nat -> A) (n h : nat) :
  (h < n)%nat -> nth_error (map f (seq 0 n)) h = Some (f h).
Proof.
  intros Hh. rewrite nth_error_map.
  rewrite (nth_error_nth' (seq 0 n) 0%nat) by (now rewrite length_seq).
  rewrite seq_nth by assumption. reflexivity.
Qed.

Section LoadProfileFacts.

Variable np_exp : Q -> Q.
Variables base_load ambient_temp : Z.

(** The loop appends one timestamp and one demand per hour and touches
    nothing else. *)
Lemma profile_loop_closed (hours : list nat) (s : State) :
  profile_loop np_exp base_load ambient_temp hours s
  = set_profile (profile s ++ map (demand np_exp base_load ambient_temp) hours)
      (set_timestamps (timestamps s ++ map strftime_HM hours) s).
Proof.
  revert s. induction hours as [ | h hours IH ]; intros s.
  - destruct s. unfold set_profile, set_timestamps. simpl.
    now rewrite !app_nil_r.
  - simpl. rewrite IH. unfold set_profile, set_timestamps. simpl.
    now rewrite <- !app_assoc.
Qed.

Lemma simulate_profile_closed (s : State) :
  simulate_profile np_exp base_load ambient_temp s
  = set_profile (map (demand np_exp base_load ambient_temp) (seq 0 24))
      (set_timestamps (map strftime_HM (seq 0 24)) s).
Proof.
  unfold simulate_profile. rewrite profile_loop_closed. reflexivity.
Qed.

End LoadProfileFacts.

(** At the peak hour the load factor is 1 when [np.exp] maps 0 to 1. *)
Lemma load_factor_peak (np_exp : Q -> Q) :
  (forall x : Q, x == 0 -> np_exp x == 1) -> load_factor np_exp 14 == 1.
Proof.
  intros Hexp. unfold load_factor.
  rewrite (Hexp (inject_Z (- ((Z.of_nat 14 - 14) ^ 2)) / 20)) by reflexivity.
  reflexivity.
Qed.

(** C5: the simulator produces 24 load points and 24 timestamps, one per
    hour h of 0..23, with
    demand(h) = round(base_load * (0.6 + 0.4 * exp(-((h-14)^2)/20))
                      * (1 + (ambient_temp - 30) * 0.02), 2);
    at hour 14 with ambient_temp = 30 the demand is base_load, given that
    exp(0) = 1.  [base_load] and [ambient_temp] are the integers the sliders
    return. *)
Theorem C5_load_profile (np_exp : Q -> Q) (base_load ambient_temp : Z) (s : State) :
  List.length (profile (simulate_profile np_exp base_load ambient_temp s)) = 24%nat
  /\ List.length (timestamps (simulate_profile np_exp base_load ambient_temp s))
     = 24%nat
  /\ (forall h : nat,
        (h < 24)%nat ->
        nth_error (profile (simulate_profile np_exp base_load ambient_temp s)) h
        = Some (round2 (inject_Z base_load
                        * (0.6 + 0.4 * np_exp (inject_Z (- ((Z.of_nat h - 14) ^ 2)) / 20))
                        * (1 + inject_Z (ambient_temp - 30) * 0.02)))
        /\ nth_error (timestamps (simulate_profile np_exp base_load ambient_temp s)) h
           = Some (strftime_HM h))
  /\ ((forall x : Q, x == 0 -> np_exp x == 1) ->
      exists v : Q,
        nth_error (profile (simulate_profile np_exp base_load 30 s)) 14 = Some v
        /\ v == inject_Z base_load).
Proof.
  rewrite !simulate_profile_closed.
  unfold set_profile, set_timestamps. cbn [profile timestamps].
  split; [ now rewrite length_map, length_seq | ].
  split; [ now rewrite length_map, length_seq | ].
  split.
  - intros h Hh. split.
    + rewrite (nth_error_map_seq _ 24 h Hh). reflexivity.
    + apply (nth_error_map_seq _ 24 h Hh).
  - intros Hexp.
    exists (demand np_exp base_load 30 14). split.
    + apply (nth_error_map_seq (demand np_exp base_load 30) 24 14). lia.
    + unfold demand. apply round2_Z.
      rewrite (load_factor_peak np_exp Hexp). unfold temp_factor. simpl.
      ring.
Qed.

Lemma exp_series_0 (n : nat) (k : positive) (x : Q) :
  x == 0 -> exp_series n k x == 1.
Proof.
  intros Hx. revert k. induction n as [ | n IH ]; intros k; simpl.
  - reflexivity.
  - rewrite IH, Hx. unfold Qdiv. ring.
Qed.

Lemma exp_approx_0 (x : Q) : x == 0 -> exp_approx x == 1.
Proof.
  intros Hx. unfold exp_approx. rewrite Qred_correct. now apply exp_series_0.
Qed.

Lemma C5_load_profile_witness :
  exists v : Q,
    nth_error (profile (simulate_profile exp_approx 600 30 empty_state)) 14 = Some v
    /\ v == inject_Z 600.
Proof.
  apply (proj2 (proj2 (proj2 (C5_load_profile exp_approx 600 30 empty_state)))).
  exact exp_approx_0.
Defined.

(** ** The loops as functions of their inputs *)

Ltac state_cbn :=
  cbn [chiller_data profile timestamps active_chillers remaining_load page
       set_chiller_data set_profile set_timestamps set_active_chillers
       set_remaining_load set_page emit rbind].

(** The same, innermost state first. *)
Ltac state_cbv :=
  cbv beta iota delta
    [chiller_data profile timestamps active_chillers remaining_load page
     set_chiller_data set_profile set_timestamps set_active_chillers
     set_remaining_load set_page emit].

Lemma chiller_loop_closed (u : UnitSystem) (items : list ChillerInput) (s : State) :
  chiller_loop u items s
  = (cs <- chillers_of u items ;;
     Ok {| chiller_data := chiller_data s ++ cs;
           profile := profile s;
           timestamps := timestamps s;
           active_chillers := active_chillers s;
           remaining_load := remaining_load s;
           page := page s ++ map success_of cs |}).
Proof.
  revert s. induction items as [ | i items IH ]; intros [cd pr ts ac rl pg].
  - cbn. now rewrite !app_nil_r.
  - cbn [chiller_loop chillers_of].
    destruct (chiller_entry u i) as [c | e]; cbn [rbind]; [ | reflexivity ].
    rewrite IH. state_cbn.
    destruct (chillers_of u items) as [cs | e]; cbn [rbind]; [ | reflexivity ].
    cbn [map]. fold (success_of c). now rewrite <- !app_assoc.
Qed.

Lemma recommendation_loop_closed (cs : list Chiller) (s : State) :
  recommendation_loop cs s = set_page (page s ++ map recommend cs) s.
Proof.
  revert s. induction cs as [ | c cs IH ]; intros [cd pr ts ac rl pg].
  - cbn. now rewrite app_nil_r.
  - cbn [recommendation_loop]. rewrite IH. state_cbn. cbn [map].
    now rewrite <- app_assoc.
Qed.

Lemma entry_loop_closed (es : list Entry) (s : State) :
  entry_loop es s = set_page (page s ++ map entry_line es) s.
Proof.
  revert s.
  induction es as [ | [[name load] cop] es IH ]; intros [cd pr ts ac rl pg].
  - cbn. now rewrite app_nil_r.
  - cbn [entry_loop]. rewrite IH. state_cbn. cbn [map entry_line].
    now rewrite <- app_assoc.
Qed.

Lemma chart_loop_closed (cs : list Chiller) (s : State) :
  chart_loop cs s = set_page (page s ++ map plot_of cs) s.
Proof.
  revert s. induction cs as [ | c cs IH ]; intros [cd pr ts ac rl pg].
  - cbn. now rewrite app_nil_r.
  - cbn [chart_loop]. rewrite IH. state_cbn. cbn [map]. fold (plot_of c).
    now rewrite <- app_assoc.
Qed.

Lemma last_allocation_cons (cs : list Chiller) (i : nat) (load : Q)
  (items : list (nat * Q)) (x : list Entry * Q) :
  last_allocation cs ((i, load) :: items) x
  = last_allocation cs items (allocate cs load).
Proof. reflexivity. Qed.

Lemma hour_loop_closed (items : list (nat * Q)) (s : State) :
  hour_loop items s
  = (pg <- hour_lines (chiller_data s) (timestamps s) items ;;
     Ok {| chiller_data := chiller_data s;
           profile := profile s;
           timestamps := timestamps s;
           active_chillers :=
             fst (last_allocation (chiller_data s) items
                    (active_chillers s, remaining_load s));
           remaining_load :=
             snd (last_allocation (chiller_data s) items
                    (active_chillers s, remaining_load s));
           page := page s ++ pg |}).
Proof.
  revert s. induction items as [ | [i load] items IH ]; intros [cd pr ts ac rl pg].
  - cbn. now rewrite app_nil_r.
  - cbn [hour_loop hour_lines]. state_cbn.
    rewrite last_allocation_cons.
    fold (allocate cd load).
    destruct (allocate cd load) as [a r].
    state_cbn. cbn [fst].
    destruct (index ts i) as [t | e]; cbn [rbind]; [ | reflexivity ].
    rewrite entry_loop_closed, IH. state_cbn.
    destruct (hour_lines cd ts items) as [lines | e]; cbn [rbind];
      [ | reflexivity ].
    rewrite <- !app_assoc. reflexivity.
Qed.

(** The hour loop reads [timestamps[i]] and nothing else that can fail: with
    a timestamp for every load it returns, whatever the chillers are. *)
Lemma hour_lines_ok (cs : list Chiller) (ts : list string) (xs : list Q) (k : nat) :
  (k + List.length xs <= List.length ts)%nat ->
  exists pg : list Event,
    hour_lines cs ts (combine (seq k (List.length xs)) xs) = Ok pg.
Proof.
  revert k. induction xs as [ | x xs IH ]; intros k Hk.
  - now exists [].
  - cbn [List.length seq combine hour_lines]. cbn [List.length] in Hk.
    unfold index.
    destruct (nth_error ts k) as [t | ] eqn:Et.
    + destruct (IH (S k)) as [pg Hpg]; [ lia | ].
      cbn [rbind]. rewrite Hpg. cbn [rbind]. eauto.
    + apply nth_error_None in Et. lia.
Qed.

(** ** The sections of the script on an explicit state *)

Section Sections.

Variable np_exp : Q -> Q.
Variable inp : Inputs.
Variables (cd : list Chiller) (pr : list Q) (ts : list string).
Variables (ac : list Entry) (rl : Q) (pg : list Event).

Let s0 : State :=
  {| chiller_data := cd; profile := pr; timestamps := ts;
     active_chillers := ac; remaining_load := rl; page := pg |}.

Lemma chiller_section_closed :
  chiller_section inp s0
  = (cs <- chillers_of (unit_system inp) (chillers_in inp) ;;
     Ok {| chiller_data := cs; profile := pr; timestamps := ts;
           active_chillers := ac; remaining_load := rl;
           page := pg ++ map success_of cs |}).
Proof.
  unfold chiller_section, s0. now rewrite chiller_loop_closed.
Qed.

Lemma plant_section_closed :
  plant_section inp s0
  = (evs <- plant_lines inp cd ;;
     Ok {| chiller_data := cd; profile := pr; timestamps := ts;
           active_chillers := ac; remaining_load := rl;
           page := pg ++ evs |}).
Proof.
  unfold plant_section, plant_lines, s0.
  destruct (pump_efficiency _ _ _ _) as [pump_eff | e]; cbn [rbind];
    [ | reflexivity ].
  destruct (tower_metrics _ _ _) as [[[CT_range approach] effectiveness] | e];
    cbn [rbind]; [ | reflexivity ].
  state_cbn. rewrite recommendation_loop_closed. state_cbn.
  unfold emit_if.
  destruct (Qlt_bool pump_eff 60), (Qlt_bool effectiveness 0.5);
    state_cbv; rewrite <- ?app_assoc; cbn [app]; rewrite ?app_nil_r;
    reflexivity.
Qed.

Lemma profile_section_closed :
  profile_section np_exp inp s0
  = {| chiller_data := cd;
       profile := map (demand np_exp (base_load inp) (ambient_temp inp)) (seq 0 24);
       timestamps := map strftime_HM (seq 0 24);
       active_chillers := ac; remaining_load := rl;
       page :=
         pg ++ [plot_profile (map strftime_HM (seq 0 24))
                  (map (demand np_exp (base_load inp) (ambient_temp inp))
                     (seq 0 24))] |}.
Proof.
  unfold profile_section, s0. now rewrite simulate_profile_closed.
Qed.

Lemma sequencing_section_closed :
  sequencing_section s0
  = (lines <- hour_lines cd ts (enumerate pr) ;;
     Ok {| chiller_data := cd; profile := pr; timestamps := ts;
           active_chillers := fst (last_allocation cd (enumerate pr) (ac, rl));
           remaining_load := snd (last_allocation cd (enumerate pr) (ac, rl));
           page := pg ++ info_total_capacity (total_capacity cd) :: lines |}).
Proof.
  unfold sequencing_section, s0. state_cbn. rewrite hour_loop_closed. state_cbn.
  destruct (hour_lines cd ts (enumerate pr)) as [lines | e]; cbn [rbind];
    [ | reflexivity ].
  now rewrite <- app_assoc.
Qed.

Lemma chart_section_closed :
  chart_section s0
  = {| chiller_data := cd; profile := pr; timestamps := ts;
       active_chillers := ac; remaining_load := rl;
       page := pg ++ map plot_of cd |}.
Proof.
  unfold chart_section, s0. state_cbn. now rewrite chart_loop_closed.
Qed.

End Sections.

(** ** Reruns *)

Lemma last_allocation_start (cs : list Chiller) (items : list (nat * Q))
  (x y : list Entry * Q) :
  items <> [] -> last_allocation cs items x = last_allocation cs items y.
Proof.
  destruct items as [ | [i load] rest ]; [ congruence | reflexivity ].
Qed.

Lemma enumerate_profile_nonempty (f : nat -> Q) :
  enumerate (map f (seq 0 24)) <> [].
Proof. discriminate. Qed.

(** The script reads none of its variables before it has assigned them:
    two runs that start with the same page end in the same state. *)
Lemma script_start (np_exp : Q -> Q) (inp : Inputs) (s s' : State) :
  page s = page s' -> script np_exp inp s = script np_exp inp s'.
Proof.
  destruct s as [cd pr ts ac rl pg], s' as [cd' pr' ts' ac' rl' pg'].
  cbn [page]. intros <-. unfold script.
  rewrite !chiller_section_closed.
  destruct (chillers_of (unit_system inp) (chillers_in inp)) as [cs | e];
    cbn [rbind]; [ | reflexivity ].
  rewrite !plant_section_closed.
  destruct (plant_lines inp cs) as [evs | e]; cbn [rbind]; [ | reflexivity ].
  rewrite !profile_section_closed, !sequencing_section_closed.
  rewrite (last_allocation_start cs _ (ac, rl) (ac', rl'))
    by apply enumerate_profile_nonempty.
  destruct (hour_lines cs _ _) as [lines | e]; cbn [rbind]; [ | reflexivity ].
  now rewrite !chart_section_closed.
Qed.

(** C9: a rerun on the same inputs ends in the same state, page included,
    whatever the variables held before: [Ok] with equal states or the same
    error.  So a rerun from the state a run left behind reproduces that
    state, and any two runs show the same allocation records. *)
Theorem C9_rerun_deterministic (np_exp : Q -> Q) (inp : Inputs) :
  (forall s s' : State, rerun np_exp inp s = rerun np_exp inp s')
  /\ (forall s s1 : State,
        rerun np_exp inp s = Ok s1 -> rerun np_exp inp s1 = Ok s1)
  /\ (forall s s' s1 s2 : State,
        rerun np_exp inp s = Ok s1 ->
        rerun np_exp inp s' = Ok s2 ->
        allocation_records (page s1) = allocation_records (page s2)).
Proof.
  assert (H : forall s s' : State, rerun np_exp inp s = rerun np_exp inp s').
  { intros s s'. unfold rerun. now apply script_start. }
  split; [ exact H | ]. split.
  - intros s s1 Hs. now rewrite (H s1 s).
  - intros s s' s1 s2 H1 H2. rewrite (H s' s), H1 in H2.
    now injection H2 as <-.
Qed.

(** ** Where the rounded COP goes *)

(** C4, as stated, fails: a chiller of capacity 349.6 and power 100 has a
    COP of 3.496, below 3.5, and is stored with COP 3.50; the recommendation
    says it operates efficiently, the sequencing entry records 3.50 and the
    derating curve starts from 3.50. *)
Lemma C4_rounded_cop_is_consumed :
  ~ threshold_on_unrounded_cop SI chiller_3496
  /\ exists c : Chiller,
       chiller_entry SI chiller_3496 = Ok c
       /\ cop_of SI 349.6 100 = Ok 3.496
       /\ COP c = 3.50
       /\ recommend c = info_chiller "Chiller 1"
       /\ allocate [c] 100 = ([("Chiller 1"%string, 100, 3.50)], 0)
       /\ cop_vals c = [3.23750; 3.32500; 3.41250; 3.50000].
Proof.
  split.
  - intros H.
    destruct (H stored_3496 3.496 11.928352 (35000 # 34960) eq_refl eq_refl)
      as [_ Hw].
    discriminate Hw. reflexivity.
  - eexists. split; [ reflexivity | ]. repeat split.
Qed.

(** C4, amended: the three metrics of a chiller are rounded to 2 decimals
    when they are stored in [chiller_data] and shown; the recommendation
    compares the stored, rounded COP with 3.5, the sequencing entries record
    it, their display rounds it again without changing it, and the derating
    curve is computed from it. *)
Theorem C4_stored_cop_is_rounded (u : UnitSystem) (i : ChillerInput) (c : Chiller) :
  chiller_entry u i = Ok c ->
  exists cop eer kw_per_ton : Q,
    chiller_metrics u (in_cap i) (in_power i) = Ok (cop, eer, kw_per_ton)
    /\ COP c = round2 cop
    /\ EER c = round2 eer
    /\ kW_Ton c = round2 kw_per_ton
    /\ success_of c
       = success_chiller (in_name i) (round2 cop) (round2 eer) (round2 kw_per_ton)
    /\ recommend c
       = (if Qlt_bool (round2 cop) 3.5
          then warning_chiller (in_name i) else info_chiller (in_name i))
    /\ (forall (rest : list Chiller) (acc : list Entry) (rem : Q),
          0 < rem ->
          exists load r : Q,
            sequencing_loop (c :: rest) acc rem
            = sequencing_loop rest (acc ++ [(in_name i, load, round2 cop)]) r)
    /\ (forall load : Q,
          entry_line (in_name i, load, COP c)
          = write_entry (in_name i) load (round2 cop))
    /\ cop_vals c
       = map (fun l => round2 cop * (1 - 0.1 * (1 - inject_Z l / 100))) loads.
Proof.
  unfold chiller_entry. intros H.
  destruct (chiller_metrics u (in_cap i) (in_power i))
    as [[[cop eer] kw_per_ton] | e]; cbn [rbind] in H; [ | discriminate ].
  injection H as <-. exists cop, eer, kw_per_ton.
  split; [ reflexivity | ]. split; [ reflexivity | ].
  split; [ reflexivity | ]. split; [ reflexivity | ].
  split; [ reflexivity | ]. split; [ reflexivity | ].
  split; [ | split; [ | reflexivity ] ].
  - intros rest acc rem Hrem. cbn [sequencing_loop Capacity COP Name].
    apply Qle_bool_false in Hrem. rewrite Hrem.
    destruct (Qle_bool (in_cap i) rem); eauto.
  - intros load. cbn [entry_line COP]. now rewrite round2_idem.
Qed.

Lemma C4_stored_cop_is_rounded_witness :
  exists cop eer kw_per_ton : Q,
    chiller_metrics SI (in_cap chiller_3496) (in_power chiller_3496)
    = Ok (cop, eer, kw_per_ton)
    /\ COP stored_3496 = round2 cop
    /\ EER stored_3496 = round2 eer
    /\ kW_Ton stored_3496 = round2 kw_per_ton
    /\ success_of stored_3496
       = success_chiller (in_name chiller_3496) (round2 cop) (round2 eer)
           (round2 kw_per_ton)
    /\ recommend stored_3496
       = (if Qlt_bool (round2 cop) 3.5
          then warning_chiller (in_name chiller_3496)
          else info_chiller (in_name chiller_3496))
    /\ (forall (rest : list Chiller) (acc : list Entry) (rem : Q),
          0 < rem ->
          exists load r : Q,
            sequencing_loop (stored_3496 :: rest) acc rem
            = sequencing_loop rest
                (acc ++ [(in_name chiller_3496, load, round2 cop)]) r)
    /\ (forall load : Q,
          entry_line (in_name chiller_3496, load, COP stored_3496)
          = write_entry (in_name chiller_3496) load (round2 cop))
    /\ cop_vals stored_3496
       = map (fun l => round2 cop * (1 - 0.1 * (1 - inject_Z l / 100))) loads.
Proof.
  apply (C4_stored_cop_is_rounded SI chiller_3496 stored_3496). reflexivity.
Defined.

(** ** A run on the values the form proposes *)

Example default_rerun :
  exists s : State,
    rerun exp_approx default_inputs empty_state = Ok s
    /\ List.length (allocation_records (page s)) = 24%nat
    /\ nth_error (allocation_records (page s)) 14
       = Some {| timestamp := "14:00"; demandKw := 660.00;
                 assignments := [("Chiller 1"%string, 100, 1.67);
                                 ("Chiller 2"%string, 100, 1.67)] |}
    /\ remaining_load s = 200.60.
Proof.
  eexists. split; [ vm_compute; reflexivity | ].
  repeat split.
Qed.

(** ** Rounding to two decimals *)

Lemma Qcompare_Lt_iff (a b : Q) : Qcompare a b = Lt <-> a < b.
Proof. symmetry. apply Qlt_alt. Qed.

Lemma Qcompare_Gt_iff (a b : Q) : Qcompare a b = Gt <-> b < a.
Proof. symmetry. apply Qgt_alt. Qed.

Lemma Qcompare_Eq_iff (a b : Q) : Qcompare a b = Eq <-> a == b.
Proof. symmetry. apply Qeq_alt. Qed.

Lemma inject_Z_succ (n : Z) : inject_Z (n + 1) == inject_Z n + 1.
Proof. rewrite inject_Z_plus. reflexivity. Qed.

(** The rounded integer is within 1/2 of the number, and a number halfway
    between two integers goes to the even one. *)
Lemma round_half_even_spec (y : Q) :
  inject_Z (round_half_even y) - (1 # 2) <= y
  /\ y <= inject_Z (round_half_even y) + (1 # 2)
  /\ (y == inject_Z (round_half_even y) + (1 # 2) ->
      Z.even (round_half_even y) = true)
  /\ (y == inject_Z (round_half_even y) - (1 # 2) ->
      Z.even (round_half_even y) = true).
Proof.
  unfold round_half_even.
  pose proof (Qfloor_le y) as Hlo. pose proof (Qlt_floor y) as Hhi.
  rewrite inject_Z_succ in Hhi.
  destruct (Qcompare (y - inject_Z (Qfloor y)) (1 # 2)) eqn:E.
  - apply -> Qcompare_Eq_iff in E.
    destruct (Z.even (Qfloor y)) eqn:Ev.
    + repeat split; intros; first [ lra | assumption | exfalso; lra ].
    + rewrite inject_Z_succ. repeat split; intros; try lra.
      rewrite Z.add_1_r, Z.even_succ, <- Z.negb_even, Ev. reflexivity.
  - apply -> Qcompare_Lt_iff in E.
    repeat split; intros; first [ lra | exfalso; lra ].
  - apply -> Qcompare_Gt_iff in E. rewrite inject_Z_succ.
    repeat split; intros; first [ lra | exfalso; lra ].
Qed.

Lemma inject_Z_lt_succ (n m : Z) : (n < m)%Z -> inject_Z n + 1 <= inject_Z m.
Proof.
  intros H. rewrite <- inject_Z_succ. rewrite <- Zle_Qle. lia.
Qed.

Lemma round_half_even_mono (x y : Q) :
  x <= y -> (round_half_even x <= round_half_even y)%Z.
Proof.
  intros Hxy.
  destruct (Z_le_gt_dec (round_half_even x) (round_half_even y)) as [H | H];
    [ exact H | ].
  assert (Hgap : inject_Z (round_half_even y) + 1 <= inject_Z (round_half_even x))
    by (apply inject_Z_lt_succ; lia).
  destruct (round_half_even_spec x) as (Hx1 & _).
  destruct (round_half_even_spec y) as (_ & Hy2 & _).
  assert (E : x == y) by lra.
  rewrite (round_half_even_comp x y E) in H. lia.
Qed.

Lemma round2_mono (x y : Q) : x <= y -> round2 x <= round2 y.
Proof.
  intros Hxy. unfold round2, Qle. simpl.
  apply Z.mul_le_mono_nonneg_r; [ lia | ].
  apply round_half_even_mono. lra.
Qed.


(** ** More on the chiller metrics *)

Lemma chiller_metrics_zero (u : UnitSystem) (cap power : Q) :
  cap == 0 \/ power == 0 ->
  chiller_metrics u cap power = Raise ZeroDivisionError.
Proof.
  intros H. destruct u; unfold chiller_metrics.
  - destruct (Qeq_dec power 0) as [Hp | Hp].
    + now rewrite truediv_zero.
    + destruct H as [Hc | Hp']; [ | contradiction ].
      rewrite truediv_ok by assumption. cbn [rbind].
      rewrite truediv_zero; [ reflexivity | ]. rewrite Hc. field. exact Hp.
  - destruct (Qeq_dec power 0) as [Hp | Hp].
    + rewrite truediv_zero; [ reflexivity | ]. rewrite Hp. ring.
    + destruct H as [Hc | Hp']; [ | contradiction ].
      rewrite truediv_ok by (intros H; apply Hp; lra). cbn [rbind].
      now rewrite truediv_zero.
Qed.

Lemma chiller_metrics_ok_nonzero (u : UnitSystem) (cap power : Q)
  (m : Q * Q * Q) :
  chiller_metrics u cap power = Ok m -> ~ cap == 0 /\ ~ power == 0.
Proof.
  intros H. split; intros Hz.
  - rewrite (chiller_metrics_zero u cap power) in H by now left. discriminate.
  - rewrite (chiller_metrics_zero u cap power) in H by now right. discriminate.
Qed.

Lemma chiller_entry_inv (u : UnitSystem) (i : ChillerInput) (c : Chiller) :
  chiller_entry u i = Ok c ->
  exists cop eer kw_per_ton : Q,
    chiller_metrics u (in_cap i) (in_power i) = Ok (cop, eer, kw_per_ton)
    /\ c = {| Name := in_name i; Capacity := in_cap i; Power := in_power i;
              COP := round2 cop; EER := round2 eer;
              kW_Ton := round2 kw_per_ton |}.
Proof.
  unfold chiller_entry. intros H.
  destruct (chiller_metrics u (in_cap i) (in_power i))
    as [[[cop eer] kw_per_ton] | e]; cbn [rbind] in H; [ | discriminate ].
  injection H as <-. now exists cop, eer, kw_per_ton.
Qed.



(** ** The list of chillers *)

Lemma chillers_of_inv (u : UnitSystem) (items : list ChillerInput)
  (cs : list Chiller) :
  chillers_of u items = Ok cs ->
  Forall2 (fun i c => chiller_entry u i = Ok c) items cs.
Proof.
  revert cs. induction items as [ | i items IH ]; intros cs H; cbn in H.
  - injection H as <-. constructor.
  - destruct (chiller_entry u i) as [c | e] eqn:Ec; cbn [rbind] in H;
      [ | discriminate ].
    destruct (chillers_of u items) as [cs' | e]; cbn [rbind] in H;
      [ | discriminate ].
    injection H as <-. constructor; auto.
Qed.

Lemma truediv_raise (a b : Q) (e : PyErr) :
  truediv a b = Raise e -> e = ZeroDivisionError.
Proof.
  unfold truediv. destruct (Qeq_bool b 0); intros H; [ | discriminate ].
  now injection H as <-.
Qed.

Lemma chiller_metrics_raise (u : UnitSystem) (cap power : Q) (e : PyErr) :
  chiller_metrics u cap power = Raise e -> e = ZeroDivisionError.
Proof.
  destruct u; unfold chiller_metrics; cbv zeta.
  - destruct (truediv cap power) as [cop | e1] eqn:E1; cbn [rbind].
    + destruct (truediv 3.5 cop) as [kw | e2] eqn:E2; cbn [rbind];
        intros H; [ discriminate | ].
      injection H as <-. exact (truediv_raise _ _ _ E2).
    + intros H. injection H as <-. exact (truediv_raise _ _ _ E1).
  - destruct (truediv (cap * 12000) (power * 1000)) as [eer | e1] eqn:E1;
      cbn [rbind].
    + destruct (truediv power cap) as [kw | e2] eqn:E2; cbn [rbind];
        intros H; [ discriminate | ].
      injection H as <-. exact (truediv_raise _ _ _ E2).
    + intros H. injection H as <-. exact (truediv_raise _ _ _ E1).
Qed.

Lemma chillers_of_raise (u : UnitSystem) (items : list ChillerInput) (e : PyErr) :
  chillers_of u items = Raise e -> e = ZeroDivisionError.
Proof.
  induction items as [ | i items IH ]; cbn [chillers_of]; intros H;
    [ discriminate | ].
  unfold chiller_entry in H.
  destruct (chiller_metrics u (in_cap i) (in_power i)) as [[[cop eer] kw] | e1]
    eqn:Em; cbn [rbind] in H.
  - destruct (chillers_of u items) as [cs | e2]; cbn [rbind] in H;
      [ discriminate | ].
    injection H as <-. now apply IH.
  - injection H as <-. exact (chiller_metrics_raise _ _ _ _ Em).
Qed.

(** The chiller section rebuilds [chiller_data] from the form alone: one
    entry per input chiller, in input order, with the name, capacity and
    power typed in; no stored chiller has a zero capacity or power; one
    success line per chiller is added to the page and the other variables
    are left alone. *)
Theorem chiller_section_keeps_inputs (inp : Inputs) (s s' : State) :
  chiller_section inp s = Ok s' ->
  map Name (chiller_data s') = map in_name (chillers_in inp)
  /\ map Capacity (chiller_data s') = map in_cap (chillers_in inp)
  /\ map Power (chiller_data s') = map in_power (chillers_in inp)
  /\ Forall (fun c => ~ Capacity c == 0 /\ ~ Power c == 0) (chiller_data s')
  /\ page s' = page s ++ map success_of (chiller_data s')
  /\ profile s' = profile s
  /\ timestamps s' = timestamps s.
Proof.
  destruct s as [cd pr ts ac rl pg]. rewrite chiller_section_closed.
  destruct (chillers_of (unit_system inp) (chillers_in inp)) as [cs | e] eqn:E;
    cbn [rbind]; [ | discriminate ].
  intros H. injection H as <-. cbn [chiller_data page profile timestamps].
  apply chillers_of_inv in E.
  assert (F : Forall2 (fun i c => Name c = in_name i /\ Capacity c = in_cap i
                                  /\ Power c = in_power i
                                  /\ ~ Capacity c == 0 /\ ~ Power c == 0)
                (chillers_in inp) cs).
  { induction E as [ | i c items cs' Hic _ IH ]; constructor; [ | exact IH ].
    destruct (chiller_entry_inv _ _ _ Hic) as (cop & eer & kw & Hm & ->).
    cbn [Name Capacity Power].
    destruct (chiller_metrics_ok_nonzero _ _ _ _ Hm). tauto. }
  clear E.
  repeat split; try reflexivity;
    induction F as [ | i c items cs' (Hn & Hc & Hp & Hz) _ IH ]; cbn;
    try reflexivity; try (f_equal; assumption).
  - constructor.
  - constructor; [ tauto | exact IH ].
Qed.

Lemma chiller_section_keeps_inputs_witness :
  exists s' : State,
    chiller_section default_inputs empty_state = Ok s'
    /\ map Name (chiller_data s') = map in_name (chillers_in default_inputs)
    /\ map Capacity (chiller_data s') = map in_cap (chillers_in default_inputs)
    /\ Forall (fun c => ~ Capacity c == 0 /\ ~ Power c == 0) (chiller_data s').
Proof.
  eexists. split; [ reflexivity | ].
  pose proof (chiller_section_keeps_inputs default_inputs empty_state _ eq_refl)
    as (H1 & H2 & _ & H4 & _).
  exact (conj H1 (conj H2 H4)).
Defined.

(** ** Pump and cooling tower warnings *)






(** ** A whole run *)

Lemma script_closed (np_exp : Q -> Q) (inp : Inputs) (cd : list Chiller)
  (pr : list Q) (ts : list string) (ac : list Entry) (rl : Q) (pg : list Event) :
  script np_exp inp
    {| chiller_data := cd; profile := pr; timestamps := ts;
       active_chillers := ac; remaining_load := rl; page := pg |}
  = (cs <- chillers_of (unit_system inp) (chillers_in inp) ;;
     evs <- plant_lines inp cs ;;
     lines <- hour_lines cs timestamps_of (enumerate (profile_of np_exp inp)) ;;
     Ok {| chiller_data := cs;
           profile := profile_of np_exp inp;
           timestamps := timestamps_of;
           active_chillers :=
             fst (last_allocation cs (enumerate (profile_of np_exp inp)) (ac, rl));
           remaining_load :=
             snd (last_allocation cs (enumerate (profile_of np_exp inp)) (ac, rl));
           page :=
             ((((pg ++ map success_of cs) ++ evs)
               ++ [plot_profile timestamps_of (profile_of np_exp inp)])
              ++ info_total_capacity (total_capacity cs) :: lines)
             ++ map plot_of cs |}).
Proof.
  unfold script. rewrite chiller_section_closed.
  destruct (chillers_of (unit_system inp) (chillers_in inp)) as [cs | e];
    cbn [rbind]; [ | reflexivity ].
  rewrite plant_section_closed.
  destruct (plant_lines inp cs) as [evs | e]; cbn [rbind]; [ | reflexivity ].
  rewrite profile_section_closed, sequencing_section_closed.
  fold timestamps_of. fold (profile_of np_exp inp).
  destruct (hour_lines cs timestamps_of (enumerate (profile_of np_exp inp)))
    as [lines | e]; cbn [rbind]; [ | reflexivity ].
  now rewrite chart_section_closed.
Qed.

Lemma plant_lines_raise (inp : Inputs) (cs : list Chiller) (e : PyErr) :
  plant_lines inp cs = Raise e -> e = ZeroDivisionError.
Proof.
  unfold plant_lines, pump_efficiency, tower_metrics.
  destruct (truediv (hydraulic_power _ _ _) _) as [q | e1] eqn:E1; cbn [rbind].
  - destruct (truediv (cw_in inp - cw_out inp) _) as [eff | e2] eqn:E2;
      cbn [rbind]; intros H; [ discriminate | ].
    injection H as <-. exact (truediv_raise _ _ _ E2).
  - intros H. injection H as <-. exact (truediv_raise _ _ _ E1).
Qed.

Lemma profile_hour_lines_ok (np_exp : Q -> Q) (inp : Inputs) (cs : list Chiller) :
  exists lines,
    hour_lines cs timestamps_of (enumerate (profile_of np_exp inp)) = Ok lines.
Proof.
  apply (hour_lines_ok cs timestamps_of (profile_of np_exp inp) 0).
  unfold timestamps_of, profile_of. rewrite !length_map, !length_seq. lia.
Qed.

Lemma chillers_of_ok_iff (u : UnitSystem) (items : list ChillerInput) :
  (exists cs, chillers_of u items = Ok cs)
  <-> Forall (fun i => exists m, chiller_metrics u (in_cap i) (in_power i) = Ok m)
        items.
Proof.
  induction items as [ | i items IH ]; cbn [chillers_of].
  - split; [ constructor | eauto ].
  - unfold chiller_entry at 1.
    destruct (chiller_metrics u (in_cap i) (in_power i)) as [[[cop eer] kw] | e]
      eqn:Em; cbn [rbind].
    + split.
      * intros [cs H]. constructor; [ rewrite Em; eauto | ]. apply IH.
        destruct (chillers_of u items) as [cs' | e]; cbn [rbind] in H;
          [ eauto | discriminate ].
      * intros H. inversion H as [ | i0 items0 _ Hrest ]; subst.
        apply IH in Hrest. destruct Hrest as [cs' ->]. cbn [rbind]. eauto.
    + split.
      * intros [cs H]. discriminate.
      * intros H. inversion H as [ | i0 items0 [m Hm] _ ]; subst.
        rewrite Em in Hm. discriminate.
Qed.

Lemma plant_lines_ok_iff (inp : Inputs) (cs : list Chiller) :
  (exists evs, plant_lines inp cs = Ok evs)
  <-> (exists pump_eff,
         pump_efficiency (unit_system inp) (flow inp) (head inp) (pump_power inp)
         = Ok pump_eff)
      /\ (exists t, tower_metrics (cw_in inp) (cw_out inp) (wet_bulb inp) = Ok t).
Proof.
  unfold plant_lines.
  destruct (pump_efficiency _ _ _ _) as [pump_eff | e]; cbn [rbind].
  - destruct (tower_metrics _ _ _) as [[[CT_range approach] effectiveness] | e];
      cbn [rbind].
    + split; eauto.
    + split; [ intros [evs H]; discriminate | intros [_ [t H]]; discriminate ].
  - split; [ intros [evs H]; discriminate | intros [[p H] _]; discriminate ].
Qed.

(** A run completes exactly when every division of lines 27-34, 54 and 65
    does: the metrics of each chiller, the pump efficiency and the tower
    effectiveness.  The profile, the sequencing loop (whose [timestamps[i]]
    is always in range) and the charts raise nothing, and the only error a
    run can end in is [ZeroDivisionError]. *)
Theorem rerun_completes_iff_divisions (np_exp : Q -> Q) (inp : Inputs) (s : State) :
  ((exists s', rerun np_exp inp s = Ok s')
   <-> Forall (fun i => exists m,
                 chiller_metrics (unit_system inp) (in_cap i) (in_power i) = Ok m)
         (chillers_in inp)
       /\ (exists pump_eff,
             pump_efficiency (unit_system inp) (flow inp) (head inp)
               (pump_power inp) = Ok pump_eff)
       /\ (exists t, tower_metrics (cw_in inp) (cw_out inp) (wet_bulb inp) = Ok t))
  /\ (forall e : PyErr, rerun np_exp inp s = Raise e -> e = ZeroDivisionError).
Proof.
  destruct s as [cd pr ts ac rl pg]. unfold rerun, set_page.
  cbn [chiller_data profile timestamps active_chillers remaining_load].
  rewrite script_closed. rewrite <- chillers_of_ok_iff.
  destruct (chillers_of (unit_system inp) (chillers_in inp)) as [cs | e] eqn:Ecs;
    cbn [rbind].
  - rewrite <- (plant_lines_ok_iff inp cs).
    destruct (profile_hour_lines_ok np_exp inp cs) as [lines Hlines].
    destruct (plant_lines inp cs) as [evs | e] eqn:Eplant; cbn [rbind].
    + rewrite Hlines. cbn [rbind]. split; [ | discriminate ].
      split; eauto.
    + pose proof (plant_lines_raise _ _ _ Eplant) as ->. split.
      * split; [ intros [s' H]; discriminate | ].
        intros (_ & evs & H). discriminate.
      * intros e' H. now injection H as <-.
  - pose proof (chillers_of_raise _ _ _ Ecs) as ->. split.
    + split; [ intros [s' H]; discriminate | ].
      intros ([cs H] & _). discriminate.
    + intros e' H. now injection H as <-.
Qed.

(** ** The allocation records of a run *)

Lemma allocation_records_skip (pre rest : list Event) :
  Forall no_load pre ->
  allocation_records (pre ++ rest) = allocation_records rest.
Proof.
  induction 1 as [ | e pre He _ IH ]; [ reflexivity | ].
  destruct e; cbn in He |- *; solve [ exact IH | destruct He ].
Qed.

Lemma entry_lines_no_load (es : list Entry) : Forall no_load (map entry_line es).
Proof.
  induction es as [ | [[name load] cop] es IH ]; constructor; [ exact I | exact IH ].
Qed.

Lemma entries_of_entry_lines (es : list Entry) (rest : list Event) :
  entries_of (map entry_line es ++ rest) = map shown es ++ entries_of rest.
Proof.
  induction es as [ | [[name load] cop] es IH ]; [ reflexivity | ].
  cbn. now rewrite IH.
Qed.

(** The lines of the hour loop, followed by lines that open no record and
    do not start with an entry, read back as one record per hour. *)
Lemma hour_lines_records (cs : list Chiller) (ts : list string) (post : list Event)
  (xs : list Q) :
  entries_of post = [] ->
  allocation_records post = [] ->
  forall (k : nat) (lines : list Event),
    hour_lines cs ts (combine (seq k (List.length xs)) xs) = Ok lines ->
    entries_of (lines ++ post) = []
    /\ allocation_records (lines ++ post)
       = map (fun item : nat * Q =>
                {| timestamp := nth (fst item) ts ""%string;
                   demandKw := snd item;
                   assignments := map shown (fst (allocate cs (snd item))) |})
           (combine (seq k (List.length xs)) xs).
Proof.
  intros Hpost1 Hpost2.
  induction xs as [ | x xs IH ]; intros k lines H.
  - cbn in H. injection H as <-. now split.
  - cbn [List.length seq combine hour_lines] in H. unfold index in H.
    destruct (nth_error ts k) as [t | ] eqn:Et; cbn [rbind] in H;
      [ | discriminate ].
    destruct (hour_lines cs ts (combine (seq (S k) (List.length xs)) xs))
      as [pg | e] eqn:Epg; cbn [rbind] in H; [ | discriminate ].
    injection H as <-. destruct (IH (S k) pg Epg) as [IH1 IH2].
    split; [ reflexivity | ].
    cbn [List.length seq combine map app allocation_records fst snd].
    rewrite <- app_assoc, entries_of_entry_lines, IH1, app_nil_r.
    rewrite (allocation_records_skip _ _ (entry_lines_no_load _)), IH2.
    now rewrite (nth_error_nth ts k ""%string Et).
Qed.

Lemma combine_seq_map {A : Type} (f : nat -> A) (k n : nat) :
  combine (seq k n) (map f (seq k n)) = map (fun h => (h, f h)) (seq k n).
Proof.
  revert k. induction n as [ | n IH ]; intros k; cbn; [ reflexivity | ].
  now rewrite IH.
Qed.

Lemma plot_lines_records (cs : list Chiller) :
  entries_of (map plot_of cs) = [] /\ allocation_records (map plot_of cs) = [].
Proof.
  split; [ now destruct cs | ].
  induction cs as [ | c cs IH ]; [ reflexivity | exact IH ].
Qed.

Lemma plant_lines_no_load (inp : Inputs) (cs : list Chiller) (evs : list Event) :
  plant_lines inp cs = Ok evs -> Forall no_load evs.
Proof.
  unfold plant_lines.
  destruct (pump_efficiency _ _ _ _) as [pump_eff | e]; cbn [rbind];
    [ | discriminate ].
  destruct (tower_metrics _ _ _) as [[[CT_range approach] effectiveness] | e];
    cbn [rbind]; [ | discriminate ].
  intros H. injection H as <-.
  constructor; [ exact I | ]. constructor; [ exact I | ].
  apply Forall_app. split; [ | apply Forall_app; split ].
  - apply Forall_forall. intros e He. apply in_map_iff in He.
    destruct He as (c & <- & _). unfold recommend.
    now destruct (Qlt_bool (COP c) 3.5).
  - destruct (Qlt_bool pump_eff 60); repeat constructor.
  - destruct (Qlt_bool effectiveness 0.5); repeat constructor.
Qed.

Lemma success_lines_no_load (cs : list Chiller) : Forall no_load (map success_of cs).
Proof.
  induction cs; constructor; [ exact I | assumption ].
Qed.

(** The COP an allocation records is the stored COP of a chiller of the
    list. *)
Lemma spec_allocate_cops (cs : list Chiller) (d : Q) :
  Forall (fun e : Entry => exists c, In c cs /\ snd e = COP c)
    (fst (spec_allocate cs d)).
Proof.
  revert d. induction cs as [ | c cs IH ]; intros d; cbn; [ constructor | ].
  destruct (Qle_bool d 0); [ constructor | ].
  destruct (Qle_bool (Capacity c) d).
  - specialize (IH (d - Capacity c)).
    destruct (spec_allocate cs (d - Capacity c)) as [es r]. cbn in *.
    constructor; [ exists c; auto | ].
    eapply Forall_impl; [ | exact IH ].
    intros e (c' & Hin & He). exists c'. auto.
  - repeat constructor. exists c. auto.
Qed.

Lemma shown_stored (cs : list Chiller) (es : list Entry) :
  Forall (fun c => round2 (COP c) = COP c) cs ->
  Forall (fun e : Entry => exists c, In c cs /\ snd e = COP c) es ->
  map shown es = es.
Proof.
  intros Hcs. induction 1 as [ | [[name load] cop] es (c & Hin & He) _ IH ];
    [ reflexivity | ].
  cbn [map shown]. rewrite IH. cbn in He. subst cop.
  rewrite Forall_forall in Hcs. now rewrite (Hcs c Hin).
Qed.

Lemma chillers_of_rounded (u : UnitSystem) (items : list ChillerInput)
  (cs : list Chiller) :
  chillers_of u items = Ok cs -> Forall (fun c => round2 (COP c) = COP c) cs.
Proof.
  intros H. apply chillers_of_inv in H.
  induction H as [ | i c items cs' Hic _ IH ]; constructor; [ | exact IH ].
  destruct (chiller_entry_inv _ _ _ Hic) as (cop & eer & kw & _ & ->).
  apply round2_idem.
Qed.

(** The page of a completed run shows 24 allocation records: the record of
    hour h carries the timestamp of h, the demand of h, and the allocation
    of that demand over the chillers of [chiller_data], exactly as the
    sequencing loop computed it (rounding the stored COP again for display
    changes nothing). *)
Theorem rerun_allocation_records (np_exp : Q -> Q) (inp : Inputs) (s s' : State) :
  rerun np_exp inp s = Ok s' ->
  allocation_records (page s')
  = map (fun h : nat =>
           {| timestamp := strftime_HM h;
              demandKw := demand np_exp (base_load inp) (ambient_temp inp) h;
              assignments :=
                fst (allocate (chiller_data s')
                       (demand np_exp (base_load inp) (ambient_temp inp) h)) |})
      (seq 0 24).
Proof.
  destruct s as [cd pr ts ac rl pg]. unfold rerun, set_page.
  cbn [chiller_data profile timestamps active_chillers remaining_load].
  rewrite script_closed.
  destruct (chillers_of (unit_system inp) (chillers_in inp)) as [cs | e] eqn:Ecs;
    cbn [rbind]; [ | discriminate ].
  destruct (plant_lines inp cs) as [evs | e] eqn:Eplant; cbn [rbind];
    [ | discriminate ].
  destruct (hour_lines cs timestamps_of (enumerate (profile_of np_exp inp)))
    as [lines | e] eqn:Elines; cbn [rbind]; [ | discriminate ].
  intros H. injection H as <-. cbn [page chiller_data].
  rewrite <- !app_assoc. cbn [app].
  rewrite (allocation_records_skip _ _ (success_lines_no_load cs)).
  rewrite (allocation_records_skip _ _ (plant_lines_no_load _ _ _ Eplant)).
  cbn [allocation_records].
  destruct (plot_lines_records cs) as [Hp1 Hp2].
  destruct (hour_lines_records cs timestamps_of (map plot_of cs)
              (profile_of np_exp inp) Hp1 Hp2 0 lines Elines) as [_ ->].
  unfold profile_of at 1 2. rewrite length_map, length_seq, combine_seq_map, map_map.
  apply map_ext_in. intros h Hh. apply in_seq in Hh. cbn [fst snd].
  f_equal.
  - unfold timestamps_of.
    rewrite (nth_indep _ ""%string (strftime_HM 0))
      by (rewrite length_map, length_seq; lia).
    rewrite map_nth, seq_nth by lia. reflexivity.
  - apply (shown_stored cs); [ exact (chillers_of_rounded _ _ _ Ecs) | ].
    rewrite allocate_spec. apply spec_allocate_cops.
Qed.

Lemma rerun_allocation_records_witness :
  exists s' : State,
    rerun exp_approx default_inputs empty_state = Ok s'
    /\ allocation_records (page s')
       = map (fun h : nat =>
                {| timestamp := strftime_HM h;
                   demandKw := demand exp_approx 600 35 h;
                   assignments :=
                     fst (allocate (chiller_data s') (demand exp_approx 600 35 h)) |})
           (seq 0 24).
Proof.
  destruct (rerun exp_approx default_inputs empty_state) as [s' | e] eqn:E.
  - exists s'. split; [ reflexivity | ].
    exact (rerun_allocation_records exp_approx default_inputs empty_state s' E).
  - exfalso. vm_compute in E. discriminate E.
Defined.

(** ** Shape of the load profile *)

(** The simulated day is symmetric about 14:00: two hours that are equally
    far from hour 14 get the same demand, whatever [np.exp] computes. *)
Theorem demand_symmetric_about_14 (np_exp : Q -> Q) (base_load ambient_temp : Z)
  (s : State) (h1 h2 : nat) :
  (h1 + h2 = 28)%nat ->
  demand np_exp base_load ambient_temp h1 = demand np_exp base_load ambient_temp h2
  /\ ((h1 < 24)%nat -> (h2 < 24)%nat ->
      nth_error (profile (simulate_profile np_exp base_load ambient_temp s)) h1
      = nth_error (profile (simulate_profile np_exp base_load ambient_temp s)) h2).
Proof.
  intros Hsum.
  assert (E : demand np_exp base_load ambient_temp h1
              = demand np_exp base_load ambient_temp h2).
  { unfold demand, load_factor.
    replace ((Z.of_nat h1 - 14) ^ 2)%Z with ((Z.of_nat h2 - 14) ^ 2)%Z;
      [ reflexivity | ].
    replace (Z.of_nat h1 - 14)%Z with (- (Z.of_nat h2 - 14))%Z by lia.
    ring. }
  split; [ exact E | ].
  intros H1 H2. rewrite simulate_profile_closed. cbn [profile set_profile].
  rewrite !(nth_error_map_seq _ 24) by assumption. now rewrite E.
Qed.

Lemma demand_symmetric_about_14_witness :
  demand exp_approx 600 35 9 = demand exp_approx 600 35 19
  /\ ((9 < 24)%nat -> (19 < 24)%nat ->
      nth_error (profile (simulate_profile exp_approx 600 35 empty_state)) 9
      = nth_error (profile (simulate_profile exp_approx 600 35 empty_state)) 19).
Proof.
  apply (demand_symmetric_about_14 exp_approx 600 35 empty_state 9 19).
  reflexivity.
Defined.

Lemma inject_Z_between (lo hi n : Z) :
  (lo <= n <= hi)%Z -> inject_Z lo <= inject_Z n /\ inject_Z n <= inject_Z hi.
Proof.
  intros [H1 H2]. rewrite <- !Zle_Qle. auto.
Qed.

(** For the values the two sliders offer (base load 300..1000, ambient
    temperature 25..45), and an exponential between 0 and 1 at the hour's
    argument and equal to 1 at 0, every hourly demand lies between 162 and
    1300 kW and none exceeds the demand of hour 14. *)
Theorem demand_within_slider_bounds (np_exp : Q -> Q) (base_load ambient_temp : Z)
  (h : nat) :
  (300 <= base_load <= 1000)%Z ->
  (25 <= ambient_temp <= 45)%Z ->
  0 <= np_exp (inject_Z (- ((Z.of_nat h - 14) ^ 2)) / 20) <= 1 ->
  (forall x : Q, x == 0 -> np_exp x == 1) ->
  162 <= demand np_exp base_load ambient_temp h
  /\ demand np_exp base_load ambient_temp h
     <= demand np_exp base_load ambient_temp 14
  /\ demand np_exp base_load ambient_temp 14 <= 1300.
Proof.
  intros Hb Ha He H0.
  pose proof (load_factor_peak np_exp H0) as Hpeak.
  apply (inject_Z_between 300 1000) in Hb.
  assert (Ht : -5 <= inject_Z (ambient_temp - 30) /\ inject_Z (ambient_temp - 30) <= 15).
  { apply (inject_Z_between (-5) 15). lia. }
  change (inject_Z 300) with 300 in Hb. change (inject_Z 1000) with 1000 in Hb.
  change (inject_Z (-5)) with (-5) in Ht. change (inject_Z 15) with 15 in Ht.
  unfold demand.
  assert (Hlf : 0.6 <= load_factor np_exp h /\ load_factor np_exp h <= 1).
  { unfold load_factor. lra. }
  assert (Htf : 0.9 <= temp_factor ambient_temp /\ temp_factor ambient_temp <= 1.3).
  { unfold temp_factor. lra. }
  set (b := inject_Z base_load) in *.
  set (lf := load_factor np_exp h) in *.
  set (lf14 := load_factor np_exp 14) in *.
  set (tf := temp_factor ambient_temp) in *.
  assert (Hbt : 270 <= b * tf /\ b * tf <= 1300) by nra.
  split; [ | split ].
  - apply (Qle_trans _ (round2 162));
      [ rewrite (round2_Z 162 162) by reflexivity; apply Qle_refl | ].
    apply round2_mono.
    setoid_replace (b * lf * tf) with (b * tf * lf) by ring. nra.
  - apply round2_mono.
    setoid_replace (b * lf * tf) with (b * tf * lf) by ring.
    setoid_replace (b * lf14 * tf) with (b * tf) by (rewrite Hpeak; ring).
    nra.
  - apply (Qle_trans _ (round2 1300));
      [ | rewrite (round2_Z 1300 1300) by reflexivity; apply Qle_refl ].
    apply round2_mono.
    setoid_replace (b * lf14 * tf) with (b * tf) by (rewrite Hpeak; ring).
    lra.
Qed.

Lemma demand_within_slider_bounds_witness :
  162 <= demand exp_approx 600 35 9
  /\ demand exp_approx 600 35 9 <= demand exp_approx 600 35 14
  /\ demand exp_approx 600 35 14 <= 1300.
Proof.
  apply (demand_within_slider_bounds exp_approx 600 35 9).
  - lia.
  - lia.
  - split; vm_compute; discriminate.
  - exact exp_approx_0.
Defined.

(** ** Derating curve *)

(** The COP-against-load curve of a chiller has the four points 92.5 %,
    95 %, 97.5 % and 100 % of the stored COP: at full load it is the stored
    COP itself, and for a COP that is not negative it never decreases with
    the load. *)
Theorem cop_vals_points (c : Chiller) :
  Forall2 Qeq (cop_vals c)
    [0.925 * COP c; 0.95 * COP c; 0.975 * COP c; COP c]
  /\ (0 <= COP c ->
      Forall2 Qle (cop_vals c) (tl (cop_vals c) ++ [COP c])).
Proof.
  unfold cop_vals, loads. cbn [map tl app].
  assert (E1 : COP c * (1 - 0.1 * (1 - inject_Z 25 / 100)) == 0.925 * COP c)
    by (unfold inject_Z; field).
  assert (E2 : COP c * (1 - 0.1 * (1 - inject_Z 50 / 100)) == 0.95 * COP c)
    by (unfold inject_Z; field).
  assert (E3 : COP c * (1 - 0.1 * (1 - inject_Z 75 / 100)) == 0.975 * COP c)
    by (unfold inject_Z; field).
  assert (E4 : COP c * (1 - 0.1 * (1 - inject_Z 100 / 100)) == COP c)
    by (unfold inject_Z; field).
  split.
  - repeat (apply Forall2_cons || apply Forall2_nil); assumption.
  - intros H.
    repeat (apply Forall2_cons || apply Forall2_nil);
      rewrite ?E1, ?E2, ?E3, ?E4; lra.
Qed.

(** ** Order of finite doubles *)

Lemma digits2_pos_bounds (m : positive) :
  (2 ^ (Zpos (digits2_pos m) - 1) <= Zpos m < 2 ^ Zpos (digits2_pos m))%Z.
Proof.
  induction m as [ m IH | m IH | ]; cbn [digits2_pos].
  - rewrite Pos2Z.inj_succ, (Pos2Z.inj_xI m).
    replace (Z.succ (Zpos (digits2_pos m)) - 1)%Z
      with (Z.succ (Zpos (digits2_pos m) - 1))%Z by lia.
    rewrite !Z.pow_succ_r by lia.
    set (a := (2 ^ (Zpos (digits2_pos m) - 1))%Z) in *.
    set (b := (2 ^ Zpos (digits2_pos m))%Z) in *. clearbody a b. lia.
  - rewrite Pos2Z.inj_succ, (Pos2Z.inj_xO m).
    replace (Z.succ (Zpos (digits2_pos m)) - 1)%Z
      with (Z.succ (Zpos (digits2_pos m) - 1))%Z by lia.
    rewrite !Z.pow_succ_r by lia.
    set (a := (2 ^ (Zpos (digits2_pos m) - 1))%Z) in *.
    set (b := (2 ^ Zpos (digits2_pos m))%Z) in *. clearbody a b. lia.
  - cbn. lia.
Qed.

Lemma valid64_inv (m : positive) (e : Z) :
  F64.valid64 m e ->
  (-1074 <= e)%Z
  /\ (Zpos (digits2_pos m) <= 53)%Z
  /\ (e = (-1074)%Z \/ Zpos (digits2_pos m) = 53%Z).
Proof.
  unfold F64.valid64, bounded, canonical_mantissa, fexp, SpecFloat.emin,
    FloatOps.prec, FloatOps.emax.
  intros H. apply andb_prop in H. destruct H as [H _].
  apply Z.eqb_eq in H. lia.
Qed.

Lemma magnitude_lt (m1 m2 : positive) (e1 e2 : Z) :
  F64.valid64 m1 e1 -> F64.valid64 m2 e2 -> (e1 < e2)%Z ->
  (Zpos m1 * 2 ^ (e1 + 1074) < Zpos m2 * 2 ^ (e2 + 1074))%Z.
Proof.
  intros V1 V2 He.
  destruct (valid64_inv _ _ V1) as (L1 & D1 & _).
  destruct (valid64_inv _ _ V2) as (L2 & D2 & [E2 | E2]); [ lia | ].
  pose proof (digits2_pos_bounds m1) as [_ B1].
  pose proof (digits2_pos_bounds m2) as [B2 _].
  rewrite E2 in B2. change (53 - 1)%Z with 52%Z in B2.
  assert (P1 : (2 ^ Zpos (digits2_pos m1) <= 2 ^ 53)%Z)
    by (apply Z.pow_le_mono_r; lia).
  assert (Q1 : (0 < 2 ^ (e1 + 1074))%Z) by (apply Z.pow_pos_nonneg; lia).
  assert (Q2 : (0 < 2 ^ (e2 + 1074))%Z) by (apply Z.pow_pos_nonneg; lia).
  apply Z.lt_le_trans with (2 ^ 53 * 2 ^ (e1 + 1074))%Z.
  - apply Z.mul_lt_mono_pos_r; lia.
  - apply Z.le_trans with (2 ^ 52 * 2 ^ (e2 + 1074))%Z.
    + rewrite <- !Z.pow_add_r by lia. apply Z.pow_le_mono_r; lia.
    + apply Z.mul_le_mono_pos_r; lia.
Qed.

Lemma magnitude_compare (m1 m2 : positive) (e1 e2 : Z) :
  F64.valid64 m1 e1 -> F64.valid64 m2 e2 ->
  match (e1 ?= e2)%Z with
  | Lt => Lt
  | Gt => Gt
  | Eq => Pos.compare_cont Eq m1 m2
  end
  = (Zpos m1 * 2 ^ (e1 + 1074) ?= Zpos m2 * 2 ^ (e2 + 1074))%Z.
Proof.
  intros V1 V2. destruct (Z.compare_spec e1 e2) as [E | L | G].
  - subst e2. destruct (valid64_inv _ _ V1) as (L1 & _).
    rewrite <- Zmult_compare_compat_r by (apply Z.lt_gt, Z.pow_pos_nonneg; lia).
    reflexivity.
  - symmetry. apply Z.compare_lt_iff. now apply magnitude_lt.
  - symmetry. apply Z.compare_gt_iff. now apply magnitude_lt.
Qed.


Lemma finite_cases (x : float) :
  is_finite x = true ->
  match FloatOps.Prim2SF x with
  | S754_zero _ | S754_finite _ _ _ => True
  | _ => False
  end.
Proof.
  unfold is_finite, is_nan, is_infinity.
  rewrite !FloatAxioms.eqb_spec, FloatAxioms.abs_spec.
  destruct (FloatOps.Prim2SF x) as [ s | s | | s m e ]; cbn; try easy.
  all: destruct s; vm_compute; discriminate.
Qed.

Lemma sf_compare_scaled (x y : spec_float) :
  valid_binary FloatOps.prec FloatOps.emax x = true ->
  valid_binary FloatOps.prec FloatOps.emax y = true ->
  match x with S754_zero _ | S754_finite _ _ _ => True | _ => False end ->
  match y with S754_zero _ | S754_finite _ _ _ => True | _ => False end ->
  SFcompare x y = Some (F64.sf_scaled x ?= F64.sf_scaled y)%Z.
Proof.
  intros Vx Vy Fx Fy.
  destruct x as [ sx | sx | | sx mx ex ]; try contradiction;
    destruct y as [ sy | sy | | sy my ey ]; try contradiction;
    cbn [SFcompare F64.sf_scaled valid_binary] in *.
  - reflexivity.
  - destruct (valid64_inv _ _ Vy) as (L & _).
    assert (P : (0 < 2 ^ (ey + 1074))%Z) by (apply Z.pow_pos_nonneg; lia).
    f_equal. symmetry. destruct sy.
    + apply Z.compare_gt_iff. 
      change (Z.neg my) with (- Z.pos my)%Z. nia.
    + apply Z.compare_lt_iff. nia.
  - destruct (valid64_inv _ _ Vx) as (L & _).
    assert (P : (0 < 2 ^ (ex + 1074))%Z) by (apply Z.pow_pos_nonneg; lia).
    f_equal. symmetry. destruct sx.
    + apply Z.compare_lt_iff. change (Z.neg mx) with (- Z.pos mx)%Z. nia.
    + apply Z.compare_gt_iff. nia.
  - pose proof (magnitude_compare mx my ex ey Vx Vy) as M.
    destruct (valid64_inv _ _ Vx) as (Lx & _).
    destruct (valid64_inv _ _ Vy) as (Ly & _).
    assert (Px : (0 < 2 ^ (ex + 1074))%Z) by (apply Z.pow_pos_nonneg; lia).
    assert (Py : (0 < 2 ^ (ey + 1074))%Z) by (apply Z.pow_pos_nonneg; lia).
    f_equal. destruct sx, sy.
    + change (Z.neg mx) with (- Z.pos mx)%Z.
      change (Z.neg my) with (- Z.pos my)%Z.
      rewrite !Z.mul_opp_l, Z.compare_opp.
      rewrite (Z.compare_antisym (Z.pos mx * 2 ^ (ex + 1074))), <- M.
      now destruct (ex ?= ey)%Z.
    + symmetry. apply Z.compare_lt_iff.
      change (Z.neg mx) with (- Z.pos mx)%Z. nia.
    + symmetry. apply Z.compare_gt_iff.
      change (Z.neg my) with (- Z.pos my)%Z. nia.
    + exact M.
Qed.

Lemma compare_scaled (x y : float) :
  is_finite x = true -> is_finite y = true ->
  SFcompare (FloatOps.Prim2SF x) (FloatOps.Prim2SF y)
  = Some (F64.scaled x ?= F64.scaled y)%Z.
Proof.
  intros Fx Fy. apply sf_compare_scaled.
  - apply FloatAxioms.Prim2SF_valid.
  - apply FloatAxioms.Prim2SF_valid.
  - now apply finite_cases.
  - now apply finite_cases.
Qed.

Lemma leb_scaled (x y : float) :
  is_finite x = true -> is_finite y = true ->
  (x <=? y)%float = (F64.scaled x <=? F64.scaled y)%Z.
Proof.
  intros Fx Fy. rewrite FloatAxioms.leb_spec. unfold SFleb.
  rewrite (compare_scaled x y Fx Fy). unfold Z.leb.
  now destruct (F64.scaled x ?= F64.scaled y)%Z.
Qed.

Lemma F2Q_le (x y : float) :
  F64.F2Q x <= F64.F2Q y <-> (F64.scaled x <= F64.scaled y)%Z.
Proof.
  unfold F64.F2Q, Qle. cbn [Qnum Qden].
  assert (P : (0 < Z.pos (2 ^ 1074))%Z) by reflexivity.
  split; intros H; nia.
Qed.

Lemma leb_F2Q (x y : float) :
  is_finite x = true -> is_finite y = true ->
  (x <=? y)%float = true <-> F64.F2Q x <= F64.F2Q y.
Proof.
  intros Fx Fy. rewrite (leb_scaled x y Fx Fy), Z.leb_le.
  symmetry. apply F2Q_le.
Qed.


Lemma F2Q_zero : F64.F2Q 0 == 0.
Proof. reflexivity. Qed.

Lemma leb_zero_F2Q (x : float) :
  is_finite x = true -> (x <=? 0)%float = true <-> F64.F2Q x <= 0.
Proof.
  intros Fx. rewrite (leb_F2Q x 0 Fx eq_refl), F2Q_zero. reflexivity.
Qed.

(** ** The sequencing loop on doubles *)

Lemma F64_sequencing_loop_assignments (cs : list F64.Chiller) :
  forall (acc : list F64.Entry) (r : float),
  F64.sequencing_loop cs acc r
  = (acc ++ fst (F64.assignments cs r), snd (F64.assignments cs r)).
Proof.
  induction cs as [ | c rest IH ]; intros acc r; cbn [F64.sequencing_loop F64.assignments].
  - cbn. now rewrite app_nil_r.
  - destruct (r <=? 0)%float.
    + cbn. now rewrite app_nil_r.
    + destruct (F64.Capacity c <=? r)%float.
      * rewrite IH.
        destruct (F64.assignments rest (r - F64.Capacity c)) as [es l].
        cbn [fst snd]. now rewrite <- app_assoc.
      * rewrite IH. destruct rest as [ | c' rest' ]; cbn [F64.assignments].
        -- cbn. now rewrite app_nil_r.
        -- change (0 <=? 0)%float with true. cbn. now rewrite app_nil_r.
Qed.

Lemma F64_allocate_assignments (cs : list F64.Chiller) (d : float) :
  F64.allocate cs d = F64.assignments cs d.
Proof.
  unfold F64.allocate. rewrite F64_sequencing_loop_assignments.
  cbn [app]. now destruct (F64.assignments cs d).
Qed.

Lemma capacity_total_nonneg (cs : list F64.Chiller) :
  Forall (fun c => is_finite (F64.Capacity c) = true
                   /\ 0 < F64.F2Q (F64.Capacity c)) cs ->
  0 <= F64.capacity_total cs.
Proof.
  induction 1 as [ | c rest [_ Hc] _ IH ]; cbn [F64.capacity_total fold_right].
  - discriminate.
  - fold (F64.capacity_total rest). lra.
Qed.

Lemma assignments_exact (cs : list F64.Chiller) :
  forall r : float,
  is_finite r = true -> 0 <= F64.F2Q r ->
  Forall (fun c => is_finite (F64.Capacity c) = true
                   /\ 0 < F64.F2Q (F64.Capacity c)) cs ->
  F64.exact_run cs r = true ->
  F64.assigned_total (fst (F64.assignments cs r))
    + F64.F2Q (snd (F64.assignments cs r)) == F64.F2Q r
  /\ 0 <= F64.F2Q (snd (F64.assignments cs r))
  /\ F64.assigned_total (fst (F64.assignments cs r)) <= F64.capacity_total cs
  /\ (0 < F64.F2Q (snd (F64.assignments cs r)) ->
      F64.assigned_total (fst (F64.assignments cs r)) == F64.capacity_total cs).
Proof.
  induction cs as [ | c rest IH ]; intros r Fr Pr Hcs E.
  - cbn. repeat split; try lra.
  - pose proof (capacity_total_nonneg _ Hcs) as Tot.
    inversion Hcs as [ | c0 rest0 [Fc Pc] Hrest ]; subst c0 rest0.
    pose proof (capacity_total_nonneg _ Hrest) as TotR.
    cbn [F64.capacity_total fold_right] in *.
    fold (F64.capacity_total rest) in *.
    cbn [F64.assignments F64.exact_run] in *.
    destruct (r <=? 0)%float eqn:Z0.
    + apply (leb_zero_F2Q r Fr) in Z0. cbn [fst snd F64.assigned_total fold_right].
      repeat split; try lra.
    + destruct (F64.Capacity c <=? r)%float eqn:Full.
      * apply (leb_F2Q _ _ Fc Fr) in Full.
        apply andb_prop in E. destruct E as [E Erest].
        apply andb_prop in E. destruct E as [Fsub Esub].
        apply Qeq_bool_iff in Esub.
        assert (Psub : 0 <= F64.F2Q (r - F64.Capacity c)) by lra.
        destruct (IH _ Fsub Psub Hrest Erest) as (I1 & I2 & I3 & I4).
        destruct (F64.assignments rest (r - F64.Capacity c)) as [es l].
        cbn [fst snd F64.assigned_total fold_right] in *.
        fold (F64.assigned_total es) in *.
        repeat split; try lra.
      * assert (Lt : F64.F2Q r < F64.F2Q (F64.Capacity c)).
        { apply Qnot_le_lt. intros H. apply (leb_F2Q _ _ Fc Fr) in H. congruence. }
        cbn [fst snd F64.assigned_total fold_right].
        rewrite F2Q_zero. repeat split; try lra.
Qed.

(** C2, as stated, fails: with the capacities 64.1 and 1000 and the demand
    396.06 the loop assigns 64.1 and 331.96000000000004 (the subtraction
    396.06 - 64.1 is not exact): the capacity covers the demand, yet the
    assigned loads add up to more than the demand, as exact numbers and in
    the floats' own sum. *)
Lemma C2_rounded_remainder_exceeds_demand :
  let cs := [F64.chiller "Chiller 1" 64.1; F64.chiller "Chiller 2" 1000] in
  let d := 396.06%float in
  0 <= F64.F2Q d
  /\ Forall (fun c => 0 < F64.F2Q (F64.Capacity c)) cs
  /\ F64.allocate cs d
     = ([("Chiller 1"%string, 64.1, 1.67);
         ("Chiller 2"%string, 331.96000000000004, 1.67)], 0)%float
  /\ F64.F2Q d <= F64.capacity_total cs
  /\ F64.F2Q d < F64.assigned_total (fst (F64.allocate cs d))
  /\ (d <? 64.1 + 331.96000000000004)%float = true
  /\ F64.exact_run cs d = false.
Proof.
  split; [ vm_compute; discriminate | ].
  split; [ repeat constructor | ].
  vm_compute. repeat split; intros H; discriminate H.
Qed.

(** C2, amended: for a finite demand [d >= 0] and finite capacities [> 0],
    when every subtraction [remaining_load - cap] the loop performs is
    exact, the assigned loads add up to at most [d], to exactly [d] when and
    only when the capacities add up to at least [d], and otherwise to the
    total capacity, the shortfall being what is left of [remaining_load];
    the loop raises nothing.  The sums are the exact sums of the doubles. *)
Theorem C2_assigned_total_exact_run (cs : list F64.Chiller) (d : float) :
  is_finite d = true ->
  0 <= F64.F2Q d ->
  Forall (fun c => is_finite (F64.Capacity c) = true
                   /\ 0 < F64.F2Q (F64.Capacity c)) cs ->
  F64.exact_run cs d = true ->
  exists (es : list F64.Entry) (leftover : float),
    F64.allocate cs d = (es, leftover)
    /\ F64.assigned_total es <= F64.F2Q d
    /\ (F64.assigned_total es == F64.F2Q d <-> F64.F2Q d <= F64.capacity_total cs)
    /\ (F64.capacity_total cs < F64.F2Q d ->
        F64.assigned_total es == F64.capacity_total cs
        /\ F64.F2Q leftover == F64.F2Q d - F64.capacity_total cs).
Proof.
  intros Fd Pd Hcs E.
  destruct (assignments_exact cs d Fd Pd Hcs E) as (H1 & H2 & H3 & H4).
  rewrite F64_allocate_assignments.
  destruct (F64.assignments cs d) as [es leftover]. cbn [fst snd] in *.
  exists es, leftover. split; [ reflexivity | ].
  split; [ lra | ]. split; [ split | ].
  - lra.
  - intros Hd. destruct (Qlt_le_dec 0 (F64.F2Q leftover)) as [Hl | Hl].
    + specialize (H4 Hl). lra.
    + lra.
  - intros Hd. assert (Hl : 0 < F64.F2Q leftover) by lra.
    specialize (H4 Hl). split; lra.
Qed.

Lemma C2_assigned_total_exact_run_witness :
  let cs := [F64.chiller "Chiller 1" 100; F64.chiller "Chiller 2" 100] in
  let d := 396.06%float in
  F64.exact_run cs d = true
  /\ exists (es : list F64.Entry) (leftover : float),
       F64.allocate cs d = (es, leftover)
       /\ F64.assigned_total es <= F64.F2Q d
       /\ (F64.assigned_total es == F64.F2Q d
           <-> F64.F2Q d <= F64.capacity_total cs)
       /\ (F64.capacity_total cs < F64.F2Q d ->
           F64.assigned_total es == F64.capacity_total cs
           /\ F64.F2Q leftover == F64.F2Q d - F64.capacity_total cs).
Proof.
  split; [ vm_compute; reflexivity | ].
  apply (C2_assigned_total_exact_run
           [F64.chiller "Chiller 1" 100; F64.chiller "Chiller 2" 100] 396.06).
  - vm_compute; reflexivity.
  - vm_compute; discriminate.
  - repeat constructor.
  - vm_compute; reflexivity.
Defined.

(** ** Chiller metrics on doubles *)

(** C6, as stated, fails: a capacity of 1e-200 and a power of 1e200 are both
    positive; their quotient underflows to 0.0 and [3.5 / cop] raises. *)
Lemma C6_quotient_underflow_raises :
  (0 <? 1e-200)%float = true /\ (0 <? 1e200)%float = true
  /\ (1e-200 / 1e200 =? 0)%float = true
  /\ F64.chiller_metrics SI 1e-200 1e200 = Raise ZeroDivisionError
  /\ F64.chiller_entry SI
       {| F64.in_name := "Chiller 1"; F64.in_cap := 1e-200; F64.in_power := 1e200 |}
     = Raise ZeroDivisionError.
Proof. vm_compute. repeat split. Qed.

(** C6, amended: under SI, for a power that is not 0.0 and a capacity whose
    quotient by the power is not 0.0, the metrics are the doubles
    [cop = capacity / power], [eer = cop * 3.412] and [kw_per_ton = 3.5 / cop]
    and no division raises; [chiller_data] stores each of them rounded to two
    decimals by [round]. *)
Theorem C6_si_metrics_binary64 (name : string) (cap power : float) :
  (power =? 0)%float = false ->
  (cap / power =? 0)%float = false ->
  F64.chiller_metrics SI cap power
  = Ok (cap / power, cap / power * 3.412, 3.5 / (cap / power))%float
  /\ F64.chiller_entry SI
       {| F64.in_name := name; F64.in_cap := cap; F64.in_power := power |}
     = Ok {| F64.Name := name; F64.Capacity := cap; F64.Power := power;
             F64.COP := F64.round2 (cap / power);
             F64.EER := F64.round2 (cap / power * 3.412);
             F64.kW_Ton := F64.round2 (3.5 / (cap / power)) |}.
Proof.
  intros Hp Hq.
  assert (M : F64.chiller_metrics SI cap power
              = Ok (cap / power, cap / power * 3.412, 3.5 / (cap / power))%float).
  { unfold F64.chiller_metrics, F64.truediv. rewrite Hp. cbn [rbind].
    rewrite Hq. reflexivity. }
  split; [ exact M | ].
  unfold F64.chiller_entry. cbn [F64.in_cap F64.in_power F64.in_name].
  rewrite M. reflexivity.
Qed.

Lemma C6_si_metrics_binary64_witness :
  (60 =? 0)%float = false
  /\ (100 / 60 =? 0)%float = false
  /\ F64.chiller_entry SI
       {| F64.in_name := "Chiller 1"; F64.in_cap := 100; F64.in_power := 60 |}
     = Ok {| F64.Name := "Chiller 1"; F64.Capacity := 100; F64.Power := 60;
             F64.COP := F64.round2 (100 / 60);
             F64.EER := F64.round2 (100 / 60 * 3.412);
             F64.kW_Ton := F64.round2 (3.5 / (100 / 60)) |}.
Proof.
  split; [ reflexivity | ]. split; [ reflexivity | ].
  exact (proj2 (C6_si_metrics_binary64 "Chiller 1" 100 60 eq_refl eq_refl)).
Defined.

(** What [round] stores for the default chiller, and at a decimal tie that
    is no tie in binary. *)
Example round2_examples :
  F64.round2 (100 / 60) = 1.67%float
  /\ F64.round2 (100 / 60 * 3.412) = 5.69%float
  /\ F64.round2 (3.5 / (100 / 60)) = 2.1%float
  /\ F64.round2 2.675 = 2.67%float
  /\ F64.round2 (209.7 / 60) = 3.49%float
  /\ F64.round2 0.125 = 0.12%float.
Proof. vm_compute. repeat split. Qed.

(** ** The recommendation on the stored COP *)

Lemma F64_recommendation_loop_page (cs : list F64.Chiller) :
  forall page : list Event,
  F64.recommendation_loop cs page = page ++ map F64.recommend cs.
Proof.
  induction cs as [ | c rest IH ]; intros page; cbn.
  - now rewrite app_nil_r.
  - rewrite IH, <- app_assoc. reflexivity.
Qed.

(** C7, as stated, fails: capacity 349.6 and power 100 under SI give the COP
    3.4960000000000004, below 3.5; the stored COP is 3.5 and the chiller is
    told to operate efficiently. *)
Lemma C7_cop_below_threshold_is_efficient :
  let i := {| F64.in_name := "Chiller 1"; F64.in_cap := 349.6;
              F64.in_power := 100 |} in
  F64.chiller_metrics SI (F64.in_cap i) (F64.in_power i)
  = Ok (3.4960000000000004, 11.928352000000002, 1.0011441647597252)%float
  /\ (3.4960000000000004 <? 3.5)%float = true
  /\ exists c : F64.Chiller,
       F64.chiller_entry SI i = Ok c
       /\ F64.COP c = 3.5%float
       /\ F64.recommendation_loop [c] [] = [info_chiller "Chiller 1"].
Proof.
  split; [ vm_compute; reflexivity | ]. split; [ reflexivity | ].
  eexists. split; [ vm_compute; reflexivity | ]. split; reflexivity.
Qed.

(** C7, amended: every chiller of [chiller_data] gets one message; for the
    chiller built from an input it is the maintenance advisory if and only
    if the COP as stored, [round(cop, 2)], is below 3.5, and the "operating
    efficiently" message otherwise.  A stored COP of 3.4 gives the advisory,
    a stored COP of 3.5 does not. *)
Theorem C7_recommendation_on_stored_cop (u : UnitSystem)
  (i : F64.ChillerInput) (c : F64.Chiller) :
  F64.chiller_entry u i = Ok c ->
  (exists cop eer kw_per_ton : float,
     F64.chiller_metrics u (F64.in_cap i) (F64.in_power i)
     = Ok (cop, eer, kw_per_ton)
     /\ F64.COP c = F64.round2 cop
     /\ (F64.recommend c = warning_chiller (F64.in_name i)
         <-> (F64.round2 cop <? 3.5)%float = true)
     /\ (F64.recommend c = info_chiller (F64.in_name i)
         <-> (F64.round2 cop <? 3.5)%float = false))
  /\ (forall c' : F64.Chiller,
        F64.COP c' = 3.4%float -> F64.recommend c' = warning_chiller (F64.Name c'))
  /\ (forall c' : F64.Chiller,
        F64.COP c' = 3.5%float -> F64.recommend c' = info_chiller (F64.Name c'))
  /\ (forall (cs : list F64.Chiller) (page : list Event),
        F64.recommendation_loop cs page = page ++ map F64.recommend cs).
Proof.
  intros H. split; [ | split; [ | split ] ].
  - unfold F64.chiller_entry in H.
    destruct (F64.chiller_metrics u (F64.in_cap i) (F64.in_power i))
      as [[[cop eer] kw] | e]; cbn [rbind] in H; [ | discriminate ].
    injection H as <-. exists cop, eer, kw.
    split; [ reflexivity | ]. split; [ reflexivity | ].
    unfold F64.recommend. cbn [F64.COP F64.Name].
    destruct (F64.round2 cop <? 3.5)%float; split; split;
      solve [ reflexivity | discriminate ].
  - intros c' E. unfold F64.recommend. rewrite E. reflexivity.
  - intros c' E. unfold F64.recommend. rewrite E. reflexivity.
  - intros cs page. apply F64_recommendation_loop_page.
Qed.

Lemma C7_recommendation_on_stored_cop_witness :
  exists c : F64.Chiller,
    F64.chiller_entry SI
      {| F64.in_name := "Chiller 1"; F64.in_cap := 100; F64.in_power := 60 |}
    = Ok c
    /\ (F64.recommend c = warning_chiller "Chiller 1"
        <-> (F64.round2 (100 / 60) <? 3.5)%float = true).
Proof.
  eexists. split; [ vm_compute; reflexivity | ].
  destruct (C7_recommendation_on_stored_cop SI
              {| F64.in_name := "Chiller 1"; F64.in_cap := 100;
                 F64.in_power := 60 |} _ eq_refl)
    as [(cop & eer & kw & Hm & _ & Hw & _) _].
  vm_compute in Hm. injection Hm as <- _ _. exact Hw.
Defined.

(** ** Cooling tower on doubles *)

(** C8, as stated, fails: an inlet of 35.01 differs from the wet bulb 35.0,
    yet with an outlet of 1e15 both differences round to -1e15 and 1e15,
    their sum is 0.0 and the division raises. *)
Lemma C8_cancellation_raises :
  (35.01 =? 35)%float = false
  /\ ((35.01 - 1e15) + (1e15 - 35) =? 0)%float = true
  /\ F64.tower_metrics 35.01 1e15 35 = Raise ZeroDivisionError.
Proof. vm_compute. repeat split. Qed.

(** C8, amended: when the double [range + approach] is not 0.0 the tower
    metrics are [range = inlet - outlet], [approach = outlet - wet bulb] and
    [effectiveness = range / (range + approach)] and the division is safe;
    when it is 0.0 the division raises [ZeroDivisionError] and no
    effectiveness exists. *)
Theorem C8_cooling_tower_binary64 (cw_in cw_out wet_bulb : float) :
  (((cw_in - cw_out) + (cw_out - wet_bulb) =? 0)%float = false ->
   F64.tower_metrics cw_in cw_out wet_bulb
   = Ok (cw_in - cw_out, cw_out - wet_bulb,
         (cw_in - cw_out) / ((cw_in - cw_out) + (cw_out - wet_bulb)))%float)
  /\ (((cw_in - cw_out) + (cw_out - wet_bulb) =? 0)%float = true ->
      F64.tower_metrics cw_in cw_out wet_bulb = Raise ZeroDivisionError).
Proof.
  unfold F64.tower_metrics, F64.truediv.
  split; intros H; rewrite H; reflexivity.
Qed.

Lemma C8_cooling_tower_binary64_witness :
  F64.tower_metrics 35 30 25 = Ok (5, 5, 0.5)%float
  /\ F64.tower_metrics 30 25 30 = Raise ZeroDivisionError.
Proof.
  split.
  - exact (proj1 (C8_cooling_tower_binary64 35 30 25) eq_refl).
  - exact (proj2 (C8_cooling_tower_binary64 30 25 30) eq_refl).
Defined.
